(** * risk_pipeline.py: region cache, region resolver, risk classifier

    A shallow embedding of [src/risk_pipeline.py].  The stateful part of the
    pipeline (the cache dictionary, the geocoding provider, the cache file,
    the console log) runs in a state-and-exception monad [M] over an
    environment [env]; the classifier is a pure function on a small model
    of a data frame.

    What the program imports is kept abstract, as interfaces:
    - [Float]: the numbers found in the LATITUDE and LONGITUDE cells, with
      the test [x == 0] and the builtin [round(x, 5)];
    - [Geocoder]: [geolocator.reverse], an oracle over an opaque world;
    - [Pickle]: [pickle.dump] and [pickle.load];
    - [Calendar]: [pd.to_datetime(..., errors='coerce')] and
      [.dt.to_period('M')]. *)

From Stdlib Require Import OrdersEx.
From stdpp Require Import gmap strings list sorting.

Open Scope string_scope.

(** ** Python values *)

(** A region is a Python value that is either a [str] or [None]. *)
Abbreviation region := (option string).

Definition Unknown : region := Some "Unknown".

(** Truth value of a [str]-or-[None]: [None] and the empty string are false. *)
Definition truthy (v : region) : bool :=
  match v with
  | Some s => negb (String.eqb s "")
  | None => false
  end.

(** [a or b] *)
Definition py_or (a b : region) : region := if truthy a then a else b.

(** ** Interfaces of the imported code *)

(** The numbers of the coordinate cells.  A cell is [option num]: [None] is
    the null (NaN) that pandas gives for a blank cell.  [rounded] is the
    type of the results of [round(x, 5)], compared by [==] in dictionary
    keys. *)
Class Float (num : Type) := {
  rounded : Type;
  rounded_eq_dec :: EqDecision rounded;
  rounded_countable :: Countable rounded;
  is_zero : num → bool;
  round5 : num → rounded
}.

(** [location.raw.get('address')] of a geopy location: a dictionary from
    field names to strings, or [None]. *)
Record Location := { raw_address : option (gmap string string) }.

(** What [geolocator.reverse] does: it raises, or it returns a location or
    [None]. *)
Inductive response :=
| Raises
| Returns (location : option Location).

(** The provider is called with the raw coordinates, and its answer may
    depend on a world that the pipeline does not see. *)
Class Geocoder (num World : Type) :=
  reverse : option num → option num → World → response * World.

(** [pickle.dump] to a file content and [pickle.load] from one, with the
    round trip that the pickle module promises for dictionaries of tuples
    and strings. *)
Class Pickle (obj file : Type) := {
  pickle_dump : obj → file;
  pickle_load : file → option obj;
  pickle_load_dump : ∀ o, pickle_load (pickle_dump o) = Some o
}.

(** Timestamps are integers (nanoseconds in pandas); [to_datetime] is the
    coercing parser of a CREATED_TIME cell ([None] is NaT) and [to_period_M]
    maps a timestamp to its calendar month.  An instance is the parser of
    the cells of one column: for a column of strings pandas settles the
    format on the first cell that is not null, so that the same string may
    parse differently in another frame. *)
Class Calendar (cell : Type) := {
  to_datetime : cell → option Z;
  to_period_M : Z → Z
}.

(** ** The environment and the monad *)

Inductive exn :=
| AssertionError (msg : string)
| KeyError (name : string)
| UnpicklingError
| ZeroDivisionError.

Inductive result (A : Type) :=
| Ok (a : A)
| Raise (e : exn).
Arguments Ok {A} a.
Arguments Raise {A} e.

(** The lines that [log_progress] prints, without the time stamp. *)
Inductive message :=
| MsgMatch (rows cifs : nat)
| MsgCacheLoaded (entries : nat)
| MsgCacheNotFound
| MsgCacheSaved (entries : nat)
| MsgMappingStarted
| MsgRegionPresent
| MsgScoringStarted
| MsgSummaryDone.

(** The quotient of a numpy integer by a Python integer: numpy divides
    without raising, and a zero divisor gives [nan] or [inf]. *)
Inductive ratio :=
| Ratio (n d : nat)
| NaN
| Inf.

Definition np_true_divide (a b : nat) : ratio :=
  if (b =? 0)%nat then (if (a =? 0)%nat then NaN else Inf) else Ratio a b.

(** The lines that [impacted_customer_summary] prints. *)
Inductive line :=
| LineRule
| LineTotal (jumlah_nasabah : nat)
| LineTransient (transient_risk : nat) (share : ratio)
| LinePersistent (persistent_risk : nat) (share : ratio)
| LineNote.

(** The keys of the cache, (round(lat, 5), round(lon, 5)); rounding a null
    gives a null. *)
Abbreviation key num := (option (rounded (num:=num)) * option (rounded (num:=num)))%type.

Section Environment.
Context {num World file : Type} `{Float num}.

Local Abbreviation key := (key num).

Inductive event :=
| CacheIn (k : key)
| CacheGet (k : key)
| CacheSet (k : key) (v : region)
| NetReverse (lat lon : option num)
| Sleep (delay : nat)
| FileRead (path : string)
| FileWrite (path : string)
| Log (m : message)
| Print (l : line).

(** [cache] is the one dictionary that every call of the resolver shares,
    [fs] the files by path, [trace] what happened so far, oldest first. *)
Record env := Env {
  cache : gmap key region;
  world : World;
  fs : gmap string file;
  trace : list event
}.

Definition M (A : Type) : Type := env → result A * env.

#[export] Instance M_ret : MRet M := λ A a s, (Ok a, s).

#[export] Instance M_bind : MBind M := λ A B k m s,
  match m s with
  | (Ok a, s') => k a s'
  | (Raise e, s') => (Raise e, s')
  end.

Definition raise {A} (e : exn) : M A := λ s, (Raise e, s).

Definition emit (e : event) : M unit :=
  λ s, (Ok (), Env (cache s) (world s) (fs s) (trace s ++ [e])).

Definition log_progress (msg : message) : M unit := emit (Log msg).

Definition print (l : line) : M unit := emit (Print l).

(** [region_cache = d]: from here on [cache] is the dictionary [d]. *)
Definition set_cache (d : gmap key region) : M unit :=
  λ s, (Ok (), Env d (world s) (fs s) (trace s)).

(** The dictionary as it is now. *)
Definition get_cache : M (gmap key region) := λ s, (Ok (cache s), s).

(** [open(path, 'rb')] and reading the content; [None] stands for
    FileNotFoundError. *)
Definition open_rb (path : string) : M (option file) := λ s,
  match fs s !! path with
  | Some f => (Ok (Some f), Env (cache s) (world s) (fs s) (trace s ++ [FileRead path]))
  | None => (Ok None, s)
  end.

(** [open(path, 'wb')] and writing the content: the file is replaced. *)
Definition open_wb (path : string) (content : file) : M unit := λ s,
  (Ok (), Env (cache s) (world s) (<[path := content]> (fs s))
              (trace s ++ [FileWrite path])).
End Environment.

Arguments event num {_}.
Arguments env num World file {_}.
Arguments M num World file {_} A.


(** ** Data frames *)

(** One row of the onboarding export.  A null cell is [None]; [REGION] is
    also [None] in a frame that has no REGION column. *)
Record Row (num cell : Type) := {
  DEVICE_ID : option string;
  CIF : option string;
  LATITUDE : option num;
  LONGITUDE : option num;
  CREATED_TIME : cell;
  REGION : region
}.
Arguments DEVICE_ID {num cell} r.
Arguments CIF {num cell} r.
Arguments LATITUDE {num cell} r.
Arguments LONGITUDE {num cell} r.
Arguments CREATED_TIME {num cell} r.
Arguments REGION {num cell} r.

Record DataFrame (R : Type) := {
  columns : list string;
  rows : list R
}.
Arguments columns {R} d.
Arguments rows {R} d.

(** [name in df.columns] *)
Definition has_column {R} (name : string) (df : DataFrame R) : bool :=
  bool_decide (name ∈ columns df).

Section Columns.
Context {num World file : Type} `{Float num}.

(** [df[name]], and [row[name]] of a row of [df]: a KeyError for a column
    that the frame does not have. *)
Definition getitem {R} (df : DataFrame R) (name : string)
  : M num World file unit :=
  if has_column name df then mret () else raise (KeyError name).
End Columns.

(** ** 3. Caching setup, 4. Geocoding with caching *)

Section Resolver.
Context {num World file cell : Type} `{Float num} `{Geocoder num World}.

Local Abbreviation M := (M num World file).

(** [key in cache] *)
Definition cache_contains (k : key num) : M bool := λ s,
  (Ok (bool_decide (is_Some (cache s !! k))),
   Env (cache s) (world s) (fs s) (trace s ++ [CacheIn k])).

(** [cache[key]] *)
Definition cache_getitem (k : key num) : M region := λ s,
  match cache s !! k with
  | Some v => (Ok v, Env (cache s) (world s) (fs s) (trace s ++ [CacheGet k]))
  | None => (Raise (KeyError "key"), s)
  end.

(** [cache[key] = v] *)
Definition cache_setitem (k : key num) (v : region) : M unit := λ s,
  (Ok (), Env (<[k:=v]> (cache s)) (world s) (fs s) (trace s ++ [CacheSet k v])).

(** [geolocator.reverse(f"{lat}, {lon}", language='id', timeout=10)] *)
Definition geolocator_reverse (lat lon : option num) : M response := λ s,
  let '(r, w) := reverse lat lon (world s) in
  (Ok r, Env (cache s) w (fs s) (trace s ++ [NetReverse lat lon])).

(** [time.sleep(delay)] *)
Definition time_sleep (delay : nat) : M unit := emit (Sleep delay).

(** [pd.isnull(x)] *)
Definition pd_isnull (x : option num) : bool :=
  match x with Some _ => false | None => true end.

(** [x == 0]; a NaN is not equal to zero. *)
Definition eq_zero (x : option num) : bool :=
  match x with Some v => is_zero v | None => false end.

(** [round(x, 5)]; rounding a NaN gives a NaN. *)
Definition round (x : option num) : option rounded := round5 <$> x.

(** The region that lines 60-64 read off an address. *)
Definition address_region (address : gmap string string) : region :=
  py_or (py_or (py_or (py_or (address !! "city") (address !! "town"))
                      (address !! "county"))
               (address !! "state"))
        (address !! "country").

Definition get_region_cached (lat lon : option num) (delay : nat) : M region :=
  let key := (round lat, round lon) in
  if pd_isnull lat || pd_isnull lon || eq_zero lat || eq_zero lon then
    mret Unknown
  else
    hit ← cache_contains key;
    if hit : bool then cache_getitem key
    else
      r ← geolocator_reverse lat lon;
      match r with
      | Returns location =>
          time_sleep delay;;
          match location ≫= raw_address with
          | Some address =>
              if bool_decide (address ≠ ∅) then
                let region := address_region address in
                cache_setitem key region;;
                mret region
              else
                cache_setitem key Unknown;;
                mret Unknown
          | None =>
              cache_setitem key Unknown;;
              mret Unknown
          end
      | Raises =>
          cache_setitem key Unknown;;
          mret Unknown
      end.

(** [df.progress_apply(f, axis=1)]: [f] on every row, in order. *)
Fixpoint progress_apply {R A} (f : R → M A) (l : list R) : M (list A) :=
  match l with
  | [] => mret []
  | r :: l' =>
      a ← f r;
      rest ← progress_apply f l';
      mret (a :: rest)
  end.

Definition set_REGION (r : Row num cell) (v : region) : Row num cell :=
  {| DEVICE_ID := DEVICE_ID r; CIF := CIF r; LATITUDE := LATITUDE r;
     LONGITUDE := LONGITUDE r; CREATED_TIME := CREATED_TIME r; REGION := v |}.

(** [df['REGION'] = values] *)
Definition assign_REGION (df : DataFrame (Row num cell)) (values : list region)
  : DataFrame (Row num cell) :=
  {| columns := if has_column "REGION" df then columns df
                else columns df ++ ["REGION"];
     rows := zip_with set_REGION (rows df) values |}.

(** Line 79 reads [row['LATITUDE']] and [row['LONGITUDE']] of each row
    before it calls the resolver.  On a frame without rows [apply] has no
    result to take the shape of the column from, and what the assignment
    of line 78 then does depends on the pandas at hand: the statements
    about the batch are about frames with rows. *)
Definition map_all_regions (df : DataFrame (Row num cell)) (delay : nat)
  : M (DataFrame (Row num cell)) :=
  log_progress MsgMappingStarted;;
  values ← progress_apply
    (λ row,
       getitem df "LATITUDE";;
       getitem df "LONGITUDE";;
       get_region_cached (LATITUDE row) (LONGITUDE row) delay)
    (rows df);
  mret (assign_REGION df values).
End Resolver.

(** The cache file: [open] fails on a missing file, [pickle.load] on a
    content that is no pickle. *)
Section RegionCache.
Context {num World file : Type} `{Float num}
        `{Pickle (gmap (key num) region) file}.

Local Abbreviation M := (M num World file).

Definition load_region_cache (cache_path : string) : M (gmap (key num) region) :=
  f ← open_rb cache_path;
  match f with
  | Some f =>
      match pickle_load f with
      | Some cache =>
          log_progress (MsgCacheLoaded (size cache));;
          mret cache
      | None => raise UnpicklingError
      end
  | None =>
      log_progress MsgCacheNotFound;;
      mret ∅
  end.

Definition save_region_cache (cache : gmap (key num) region) (cache_path : string)
  : M unit :=
  open_wb cache_path (pickle_dump cache);;
  log_progress (MsgCacheSaved (size cache)).
End RegionCache.

(** ** 5. Risk scoring per CIF *)

(** The order in which pandas sorts strings: by code point. *)
Definition str_le (a b : string) : Prop := String.leb a b = true.

#[export] Instance str_le_dec a b : Decision (str_le a b) :=
  decide (String.leb a b = true).

(** [Series.nunique()]: the number of distinct values, nulls left out. *)
Definition nunique {A} `{EqDecision A} (values : list (option A)) : nat :=
  length (remove_dups (omap id values)).

(** [Series.notna().any()] *)
Definition notna_any {A} (values : list (option A)) : bool :=
  existsb (λ v, bool_decide (is_Some v)) values.

(** The number of times [v] occurs in [values]. *)
Definition occurrences (v : string) (values : list string) : nat :=
  length (filter (λ w, w = v) values).

(** [Series.mode()]: the values that occur most often among the non-null
    ones, in sorted order. *)
Definition mode (values : list region) : list string :=
  let present := omap id values in
  let uniques := remove_dups present in
  let most := max_list ((λ v, occurrences v present) <$> uniques) in
  merge_sort str_le (filter (λ v, occurrences v present = most) uniques).

(** [Series.min()] of timestamps: the least one, NaT when there is none. *)
Definition series_min (values : list (option Z)) : option Z :=
  match omap id values with
  | [] => None
  | t :: ts => Some (foldr Z.min t ts)
  end.

(** Lines 94-108. *)
Definition score_label (months devices : nat) : Z * string :=
  if (months =? 1)%nat && (devices =? 1)%nat then (1%Z, "Transient")
  else if (1 <? months)%nat && (devices =? 1)%nat then (2%Z, "Persistent")
  else if (months =? 1)%nat && (1 <? devices)%nat then (2%Z, "Multi-device")
  else if (1 <? months)%nat && (1 <? devices)%nat then (3%Z, "Critical")
  else (1%Z, "Transient").

Record RiskResult := {
  Risk_CIF : string;
  Risk_Score : Z;
  Risk_Label : string;
  Region : region;
  Cohort : option Z
}.

Definition RiskResult_columns : list string :=
  ["CIF"; "Risk_Score"; "Risk_Label"; "Region"; "Cohort"].

(** [pd.DataFrame(results)] of a list of dictionaries: the columns are the
    keys of the dictionaries, and there is none when the list is empty. *)
Definition pd_DataFrame (results : list RiskResult) : DataFrame RiskResult :=
  {| columns := match results with [] => [] | _ :: _ => RiskResult_columns end;
     rows := results |}.

Section Classifier.
Context {num World file cell : Type} `{Float num} `{Calendar cell}.

Local Abbreviation M := (M num World file).
Local Abbreviation Row := (Row num cell).

(** The month of a row, once CREATED_TIME is parsed (lines 86-87). *)
Definition BULAN_TAHUN (r : Row) : option Z :=
  to_period_M <$> to_datetime (CREATED_TIME r).

(** [df.groupby('CIF')]: one group per non-null CIF, the keys in sorted
    order, each group with its rows in the order of the frame.  The
    identifiers are strings here, and sorted as strings; a CIF column
    that Excel gives as numbers is sorted by pandas as numbers. *)
Definition group_keys (rws : list Row) : list string :=
  merge_sort str_le (remove_dups (omap CIF rws)).

Definition group_rows (cif : string) (rws : list Row) : list Row :=
  filter (λ r, CIF r = Some cif) rws.

Definition groupby_CIF (rws : list Row) : list (string * list Row) :=
  (λ cif, (cif, group_rows cif rws)) <$> group_keys rws.

Definition group_months (group : list Row) : nat :=
  nunique (BULAN_TAHUN <$> group).

Definition group_devices (has_DEVICE_ID : bool) (group : list Row) : nat :=
  if has_DEVICE_ID then nunique (DEVICE_ID <$> group) else 1%nat.

(** Line 109.  [mode()] of a series with a non-null value is not empty,
    so that [mode()[0]] is its head. *)
Definition group_region (group : list Row) : region :=
  if notna_any (REGION <$> group) then head (mode (REGION <$> group))
  else Unknown.

(** Lines 88 and 110: the month of the earliest timestamp of the group. *)
Definition group_cohort (group : list Row) : option Z :=
  to_period_M <$> series_min ((to_datetime ∘ CREATED_TIME) <$> group).

(** The body of the loop, lines 92-111. *)
Definition risk_result (has_DEVICE_ID : bool) (cif : string) (group : list Row)
  : RiskResult :=
  let months := group_months group in
  let devices := group_devices has_DEVICE_ID group in
  let '(score, label) := score_label months devices in
  {| Risk_CIF := cif; Risk_Score := score; Risk_Label := label;
     Region := group_region group; Cohort := group_cohort group |}.

(** The loop of lines 90-111: one result per group, in the order of the
    groups. *)
Definition risk_results (df : DataFrame Row) : list RiskResult :=
  (λ '(cif, group), risk_result (has_column "DEVICE_ID" df) cif group)
    <$> groupby_CIF (rows df).

(** The columns are looked up where the code looks them up: CREATED_TIME
    at line 86, CIF at line 88, and REGION at line 109, in the first
    pass of the loop. *)
Definition compute_risk_scoring (df : DataFrame Row) : M (DataFrame RiskResult) :=
  log_progress MsgScoringStarted;;
  getitem df "CREATED_TIME";;
  getitem df "CIF";;
  (match groupby_CIF (rows df) with
   | [] => mret ()
   | _ :: _ => getitem df "REGION"
   end);;
  mret (pd_DataFrame (risk_results df)).
End Classifier.

(** ** 9. Impacted customers *)

Section ImpactSummary.
Context {num World file : Type} `{Float num}.

Local Abbreviation M := (M num World file).

(** Lines 172-181.  The two shares are computed while their lines are
    formatted, after the first two lines are out. *)
Definition impacted_customer_summary (df_risk : DataFrame RiskResult) : M unit :=
  getitem df_risk "CIF";;
  let jumlah_nasabah := nunique ((Some ∘ Risk_CIF) <$> rows df_risk) in
  getitem df_risk "Risk_Label";;
  let transient_risk :=
    length (filter (λ r, Risk_Label r = "Transient") (rows df_risk)) in
  let persistent_risk :=
    length (filter (λ r, Risk_Label r ≠ "Transient") (rows df_risk)) in
  print LineRule;;
  print (LineTotal jumlah_nasabah);;
  print (LineTransient transient_risk
           (np_true_divide transient_risk jumlah_nasabah));;
  print (LinePersistent persistent_risk
           (np_true_divide persistent_risk jumlah_nasabah));;
  print LineRule;;
  print LineNote;;
  log_progress MsgSummaryDone.
End ImpactSummary.

(** ** 2. Join, 10. Main pipeline *)

Section Pipeline.
Context {num World file cell : Type} `{Float num} `{Geocoder num World}
        `{Pickle (gmap (key num) region) file} `{Calendar cell}.

Local Abbreviation M := (M num World file).
Local Abbreviation Row := (Row num cell).

(** [astype(str)] of a DEVICE_ID cell; a null prints as "nan". *)
Definition astype_str (v : option string) : string := default "nan" v.

(** Line 28 reads [df_prod['DEVICE_ID']], and line 29 [joined['CIF']]
    while it formats the line of the log. *)
Definition filter_production_by_deviceid
    (df_prod : DataFrame Row) (device_ids : gset string) : M (DataFrame Row) :=
  getitem df_prod "DEVICE_ID";;
  let joined :=
    {| columns := columns df_prod;
       rows := filter (λ r, astype_str (DEVICE_ID r) ∈ device_ids) (rows df_prod) |} in
  getitem joined "CIF";;
  log_progress (MsgMatch (length (rows joined)) (nunique (CIF <$> rows joined)));;
  mret joined.

Definition wajib : list string :=
  ["DEVICE_ID"; "CIF"; "LATITUDE"; "LONGITUDE"; "CREATED_TIME"].

(** Lines 192-193: the first required column that is missing fails the
    assertion. *)
Fixpoint assert_columns (ws : list string) (df_prod : DataFrame Row) : M unit :=
  match ws with
  | [] => mret ()
  | w :: ws' =>
      if has_column w df_prod then assert_columns ws' df_prod
      else raise (AssertionError ("Missing required column: " +:+ w))
  end.

Definition cache_path : string := "region_cache.pkl".

(** Lines 190-204 of [main_pipeline], from the two spread sheets as lines
    186-188 read them, up to the classification.  Lines 205-214 (the
    charts, the heat map, the summary and the export of [df_risk]) are
    not embedded: a run that raises here is a run of the source function,
    and a run that returns here goes on in the source with line 205. *)
Definition main_pipeline (device_ids : gset string) (df_prod : DataFrame Row)
  : M (DataFrame RiskResult) :=
  assert_columns wajib df_prod;;
  df_join ← filter_production_by_deviceid df_prod device_ids;
  region_cache ← load_region_cache cache_path;
  set_cache region_cache;;
  df_join ←
    (if negb (has_column "REGION" df_join) then
       df_join ← map_all_regions df_join 1;
       region_cache ← get_cache;
       save_region_cache region_cache cache_path;;
       mret df_join
     else
       log_progress MsgRegionPresent;;
       mret df_join);
  compute_risk_scoring df_join.
End Pipeline.

(** ** A concrete instance, for the examples

    Coordinates in millionths of a degree, a provider that answers from a
    script, pickles as the code numbers of stdpp's [Countable], and time
    stamps written as the decimal number YYYYMMDD. *)

Module Example.
(** Rounding a number of millionths to a number of hundred-thousandths,
    halves to even. *)
Definition round_half_even (z : Z) : Z :=
  let q := (z `div` 10)%Z in
  let r := (z `mod` 10)%Z in
  if (r <? 5)%Z then q
  else if (5 <? r)%Z then (q + 1)%Z
  else if Z.even q then q else (q + 1)%Z.

#[export] Instance micro_degrees : Float Z := {|
  rounded := Z;
  is_zero := λ z, (z =? 0)%Z;
  round5 := round_half_even
|}.

(** The provider gives the next answer of the script, and fails when the
    script is over. *)
#[export] Instance scripted : Geocoder Z (list response) := λ _ _ w,
  match w with
  | r :: w' => (r, w')
  | [] => (Raises, [])
  end.

#[export] Instance code_numbers : Pickle (gmap (key Z) region) positive := {|
  pickle_dump := encode;
  pickle_load := decode;
  pickle_load_dump := decode_encode
|}.

#[export] Instance decimal_dates : Calendar (option Z) := {|
  to_datetime := id;
  to_period_M := λ t, (t `div` 100)%Z
|}.

Definition env0 (w : list response) : env Z (list response) positive :=
  {| cache := ∅; world := w; fs := ∅; trace := [] |}.

Definition located (fields : list (string * string)) : response :=
  Returns (Some {| raw_address := Some (list_to_map fields) |}).

Definition row (device cif : string) (lat lon : Z) (created : Z) (reg : region)
  : Row Z (option Z) :=
  {| DEVICE_ID := Some device; CIF := Some cif;
     LATITUDE := Some lat; LONGITUDE := Some lon;
     CREATED_TIME := Some created; REGION := reg |}.

Definition all_columns : list string :=
  ["DEVICE_ID"; "CIF"; "LATITUDE"; "LONGITUDE"; "CREATED_TIME"; "REGION"].

(** The four customers of the scenarios of the specification, section 8,
    in one frame. *)
Definition scenarios : DataFrame (Row Z (option Z)) :=
  {| columns := all_columns;
     rows := [
       row "d4a" "C4" (-6200000) 106816666 20240110 (Some "Jakarta");
       row "d1" "C1" (-6200000) 106816666 20240305 (Some "Jakarta");
       row "d2" "C2" (-6914744) 107609810 20240120 (Some "Bandung");
       row "d3a" "C3" (-7257472) 112752088 20240302 (Some "Surabaya");
       row "d1" "C1" (-6200000) 106816666 20240320 (Some "Jakarta");
       row "d2" "C2" (-6914744) 107609810 20240311 (Some "Bandung");
       row "d3b" "C3" (-7257472) 112752088 20240328 (Some "Sidoarjo");
       row "d4b" "C4" (-6595038) 106816635 20240315 (Some "Bogor")
     ] |}.
End Example.

(** ** Vocabulary of the statements *)

(** The decision table of the specification, section 4.3, with its
    default for a group without a valid month. *)
Definition decision_table (months devices : nat) (score : Z) (label : string) : Prop :=
  (months = 1 → devices = 1 → score = 1%Z ∧ label = "Transient") ∧
  (months > 1 → devices = 1 → score = 2%Z ∧ label = "Persistent") ∧
  (months = 1 → devices > 1 → score = 2%Z ∧ label = "Multi-device") ∧
  (months > 1 → devices > 1 → score = 3%Z ∧ label = "Critical") ∧
  (months = 0 → score = 1%Z ∧ label = "Transient").

(** What the specification, section 4.4, asks of the region of a group
    whose non-null regions are [present]: "Unknown" when there is none,
    and otherwise a region that no other outnumbers and that comes first
    in the order of strings among those that occur as often. *)
Definition dominant_among (present : list string) (reg : region) : Prop :=
  (present = [] → reg = Unknown) ∧
  (present ≠ [] →
     ∃ m, reg = Some m ∧ m ∈ present ∧
       (∀ v, (occurrences v present ≤ occurrences m present)%nat) ∧
       (∀ v, v ∈ present →
             occurrences v present = occurrences m present →
             str_le m v)).

Definition is_NetReverse {num} `{Float num} (e : event num) : Prop :=
  match e with NetReverse _ _ => True | _ => False end.

Definition is_Sleep {num} `{Float num} (e : event num) : Prop :=
  match e with Sleep _ => True | _ => False end.

Section ResolverVocabulary.
Context {num World file : Type} `{Float num} `{Geocoder num World}.

Local Abbreviation env := (env num World file).

(** The coordinates that line 51 turns away: a null or a zero. *)
Definition sentinel (lat lon : option num) : bool :=
  pd_isnull lat || pd_isnull lon || eq_zero lat || eq_zero lon.

(** The region that a miss stores for an answer of the provider. *)
Definition response_region (r : response) : region :=
  match r with
  | Returns location =>
      match location ≫= raw_address with
      | Some address =>
          if bool_decide (address ≠ ∅) then address_region address else Unknown
      | None => Unknown
      end
  | Raises => Unknown
  end.

(** One call of the resolver, whatever its arguments. *)
Inductive resolve_step : env → env → Prop :=
| resolve_step_call lat lon delay s :
    resolve_step s (get_region_cached lat lon delay s).2.

(** The life time of a cache: any number of calls, one after another. *)
Definition resolve_steps : env → env → Prop := rtc resolve_step.
End ResolverVocabulary.

(** The fields of an address that line 60-64 try, in their order. *)
Definition preferred_fields : list string :=
  ["city"; "town"; "county"; "state"; "country"].

Definition is_CacheSet {num} `{Float num} (e : event num) : Prop :=
  match e with CacheSet _ _ => True | _ => False end.

Section BatchVocabulary.
Context {num cell : Type} `{Float num}.

(** The key of the coordinates of a row, and whether line 51 turns the row
    away. *)
Definition row_key (r : Row num cell) : key num :=
  (round (LATITUDE r), round (LONGITUDE r)).

Definition row_sentinel (r : Row num cell) : bool :=
  sentinel (LATITUDE r) (LONGITUDE r).

(** A row after the batch: the region is set and the other cells are as
    they were. *)
Definition same_cells (r r' : Row num cell) : Prop :=
  DEVICE_ID r' = DEVICE_ID r ∧ CIF r' = CIF r ∧
  LATITUDE r' = LATITUDE r ∧ LONGITUDE r' = LONGITUDE r ∧
  CREATED_TIME r' = CREATED_TIME r.

(** What the batch leaves for a row: "Unknown" when line 51 turns the row
    away, and else the entry of the cache under the key of the row. *)
Definition resolved_in (c : gmap (key num) region) (r : Row num cell) (v : region)
  : Prop :=
  if row_sentinel r then v = Unknown else c !! row_key r = Some v.

(** An event that is no call of the provider, no delay and no write to the
    cache. *)
Definition quiet (e : event num) : Prop :=
  ¬ is_NetReverse e ∧ ¬ is_Sleep e ∧ ¬ is_CacheSet e.
End BatchVocabulary.

(** The function that [map_all_regions] applies to a row (line 79). *)
Definition resolve_row {num World file cell : Type} `{Float num}
    `{Geocoder num World} (delay : nat) (r : Row num cell)
  : M num World file region :=
  get_region_cached (LATITUDE r) (LONGITUDE r) delay.

Section PipelineVocabulary.
Context {num cell : Type}.

(** The rows of the export whose device is flagged (line 28). *)
Definition joined_rows (df_prod : DataFrame (Row num cell)) (device_ids : gset string)
  : list (Row num cell) :=
  filter (λ r, astype_str (DEVICE_ID r) ∈ device_ids) (rows df_prod).
End PipelineVocabulary.

(** The export of the scenarios as it comes without a REGION column, and
    the devices that are flagged in the examples. *)
Definition export_without_region : DataFrame (Row Z (option Z)) :=
  {| columns := wajib;
     rows := (λ r, set_REGION r None) <$> rows Example.scenarios |}.

Definition flagged_devices : gset string := {["d1"; "d3a"; "d3b"; "d4b"]}.

(** * Properties *)

(** ** The resolver *)

Section ResolverFacts.
Context {num World file : Type} `{Float num} `{Geocoder num World}.

Local Abbreviation env := (env num World file).
Implicit Types (s : env) (lat lon : option num) (delay : nat).

Lemma get_region_cached_sentinel lat lon delay s :
  sentinel lat lon = true →
  get_region_cached lat lon delay s = (Ok Unknown, s).
Proof.
  unfold sentinel, get_region_cached. intros ->. reflexivity.
Qed.

Lemma get_region_cached_hit lat lon delay s v :
  sentinel lat lon = false →
  cache s !! (round lat, round lon) = Some v →
  get_region_cached lat lon delay s =
    (Ok v, Env (cache s) (world s) (fs s)
               (trace s ++ [CacheIn (round lat, round lon);
                            CacheGet (round lat, round lon)])).
Proof.
  unfold sentinel, get_region_cached. intros -> Hv.
  unfold mbind, M_bind, cache_contains, cache_getitem. simpl.
  rewrite Hv. rewrite bool_decide_eq_true_2 by eauto. simpl.
  rewrite Hv. by rewrite <- app_assoc.
Qed.

Lemma get_region_cached_miss lat lon delay s :
  sentinel lat lon = false →
  cache s !! (round lat, round lon) = None →
  get_region_cached lat lon delay s =
    let k := (round lat, round lon) in
    let r := (reverse lat lon (world s)).1 in
    (Ok (response_region r),
     Env (<[k := response_region r]> (cache s))
         (reverse lat lon (world s)).2 (fs s)
         (trace s ++ [CacheIn k; NetReverse lat lon]
                  ++ match r with Returns _ => [Sleep delay] | Raises => [] end
                  ++ [CacheSet k (response_region r)])).
Proof.
  unfold sentinel, get_region_cached. intros -> Hv.
  unfold mbind, M_bind, cache_contains, geolocator_reverse. simpl.
  rewrite Hv. rewrite bool_decide_eq_false_2 by (intros [? ?]; done). simpl.
  destruct (reverse lat lon (world s)) as [r w]. simpl.
  destruct r as [|location]; simpl.
  - unfold cache_setitem. simpl. by rewrite <- !app_assoc.
  - unfold mbind. destruct (option_bind _ _ raw_address location) as [address|]; simpl.
    + destruct (bool_decide (address ≠ ∅)); unfold mret, M_ret; simpl;
        by rewrite <- !app_assoc.
    + unfold cache_setitem; simpl. by rewrite <- !app_assoc.
Qed.

(** A call never raises. *)
Lemma get_region_cached_returns lat lon delay s :
  ∃ v, (get_region_cached lat lon delay s).1 = Ok v.
Proof.
  destruct (sentinel lat lon) eqn:Hs.
  - rewrite get_region_cached_sentinel by done. eauto.
  - destruct (cache s !! (round lat, round lon)) as [v|] eqn:Hc.
    + rewrite (get_region_cached_hit _ _ _ _ v) by done. eauto.
    + rewrite get_region_cached_miss by done. simpl. eauto.
Qed.

(** A call leaves every entry of the cache as it is. *)
Lemma get_region_cached_keeps lat lon delay s k v :
  cache s !! k = Some v →
  cache (get_region_cached lat lon delay s).2 !! k = Some v.
Proof.
  intros Hk. destruct (sentinel lat lon) eqn:Hs.
  - by rewrite get_region_cached_sentinel.
  - destruct (cache s !! (round lat, round lon)) as [w|] eqn:Hc.
    + by rewrite (get_region_cached_hit _ _ _ _ w).
    + rewrite get_region_cached_miss by done. simpl.
      rewrite lookup_insert_ne; [done | congruence].
Qed.

Lemma resolve_steps_keep s s' k v :
  resolve_steps s s' → cache s !! k = Some v → cache s' !! k = Some v.
Proof.
  induction 1 as [|s1 s2 s3 Hstep _ IH]; [done |].
  intros Hk. apply IH. destruct Hstep. by apply get_region_cached_keeps.
Qed.

(** A call that passes line 51 leaves its answer under its key. *)
Lemma get_region_cached_stores lat lon delay s :
  sentinel lat lon = false →
  ∃ v, (get_region_cached lat lon delay s).1 = Ok v ∧
       cache (get_region_cached lat lon delay s).2 !! (round lat, round lon) = Some v.
Proof.
  intros Hs. destruct (cache s !! (round lat, round lon)) as [w|] eqn:Hc.
  - rewrite (get_region_cached_hit _ _ _ _ w) by done. eauto.
  - rewrite get_region_cached_miss by done. simpl.
    eexists. split; [done |]. apply lookup_insert_eq.
Qed.

(** C3.  When the latitude or the longitude is null or exactly zero,
    the resolver returns "Unknown" and leaves the environment as it
    found it: the cache is neither read nor written, the provider is not
    called, and nothing is added to the trace. *)
Theorem sentinel_coordinate_unknown lat lon delay s :
  pd_isnull lat = true ∨ eq_zero lat = true ∨
  pd_isnull lon = true ∨ eq_zero lon = true →
  get_region_cached lat lon delay s = (Ok Unknown, s).
Proof.
  intros Hsent. apply get_region_cached_sentinel. unfold sentinel.
  destruct Hsent as [-> | [-> | [-> | ->]]];
    rewrite ?orb_true_r; reflexivity.
Qed.

(** C4, as amended.  Take two calls whose coordinates round to the same
    key and that line 51 treats alike (both turned away, or both let
    through), the second at any later time of the same cache.  Then the
    second call returns what the first returned, it adds no call of the
    provider to the trace and leaves the cache and the provider as they
    were, and every entry that the cache held after the first call is
    still there, with the same region. *)
Theorem cache_idempotence lat1 lon1 delay1 lat2 lon2 delay2 s s2 :
  (round lat1, round lon1) = (round lat2, round lon2) →
  sentinel lat1 lon1 = sentinel lat2 lon2 →
  resolve_steps (get_region_cached lat1 lon1 delay1 s).2 s2 →
  ∃ v tr,
    (get_region_cached lat1 lon1 delay1 s).1 = Ok v ∧
    get_region_cached lat2 lon2 delay2 s2 =
      (Ok v, Env (cache s2) (world s2) (fs s2) (trace s2 ++ tr)) ∧
    Forall (λ e, ¬ is_NetReverse e) tr ∧
    (∀ k w, cache (get_region_cached lat1 lon1 delay1 s).2 !! k = Some w →
            cache s2 !! k = Some w).
Proof.
  intros Hkey Hsent Hsteps.
  assert (Hkeep : ∀ k w,
    cache (get_region_cached lat1 lon1 delay1 s).2 !! k = Some w →
    cache s2 !! k = Some w) by (intros k w; by apply resolve_steps_keep).
  destruct (sentinel lat1 lon1) eqn:Hs1.
  - exists Unknown, []. symmetry in Hsent.
    split; [by rewrite get_region_cached_sentinel |].
    split; [| split; [constructor | exact Hkeep]].
    rewrite get_region_cached_sentinel by done.
    rewrite app_nil_r. by destruct s2.
  - destruct (get_region_cached_stores lat1 lon1 delay1 s Hs1) as (v & Hv & Hc).
    exists v, [CacheIn (round lat2, round lon2); CacheGet (round lat2, round lon2)].
    split; [done |]. split; [| split; [| done]].
    + apply get_region_cached_hit; [done |].
      rewrite <- Hkey. by apply Hkeep.
    + repeat constructor; simpl; tauto.
Qed.
End ResolverFacts.

Import Example.

Lemma sentinel_coordinate_unknown_witness :
  get_region_cached (file:=positive) (Some 0%Z) (Some 106816666%Z) 1
    (env0 [located [("city", "Jakarta")]])
  = (Ok Unknown, env0 [located [("city", "Jakarta")]]).
Proof.
  apply (sentinel_coordinate_unknown (Some 0%Z) (Some 106816666%Z) 1).
  right. left. reflexivity.
Defined.

Lemma cache_idempotence_witness :
  let s := env0 [located [("city", "Jakarta")]; located [("city", "Bogor")]] in
  let s1 := (get_region_cached (file:=positive)
               (Some (-6200001)%Z) (Some 106816666%Z) 1 s).2 in
  ∃ v tr,
    (get_region_cached (Some (-6200001)%Z) (Some 106816666%Z) 1 s).1 = Ok v ∧
    get_region_cached (Some (-6199999)%Z) (Some 106816674%Z) 1 s1 =
      (Ok v, Env (cache s1) (world s1) (fs s1) (trace s1 ++ tr)) ∧
    Forall (λ e, ¬ is_NetReverse e) tr ∧
    (∀ k w, cache s1 !! k = Some w → cache s1 !! k = Some w).
Proof.
  intros s s1.
  apply (cache_idempotence (Some (-6200001)%Z) (Some 106816666%Z) 1
           (Some (-6199999)%Z) (Some 106816674%Z) 1 s s1).
  - reflexivity.
  - reflexivity.
  - apply rtc_refl.
Defined.

(** C4, as stated, fails: a latitude of one millionth of a degree and a
    latitude of exactly zero round to the same key, the first call is
    answered by the provider, and the second is turned away at line 51 and
    returns "Unknown". *)
Lemma cache_idempotence_counterexample :
  let lon := Some 109300000%Z in
  let s := env0 [located [("city", "Pontianak")]] in
  let first := get_region_cached (file:=positive) (Some 1%Z) lon 1 s in
  let second := get_region_cached (Some 0%Z) lon 1 first.2 in
  (round (Some 1%Z), round lon) = (round (Some 0%Z), round lon) ∧
  first.1 = Ok (Some "Pontianak") ∧
  second.1 = Ok (Some "Unknown") ∧
  second.1 ≠ first.1.
Proof.
  vm_compute. repeat split. discriminate.
Qed.

(** The two failures that the resolver does turn into "Unknown": an
    error of the provider and an empty answer. *)
Lemma failure_stores_unknown :
  let lat := Some (-6200000)%Z in
  let lon := Some 106816666%Z in
  ∀ r, r ∈ [Raises; Returns None; Returns (Some {| raw_address := None |});
            located []] →
    let out := get_region_cached (file:=positive) lat lon 1 (env0 [r]) in
    out.1 = Ok (Some "Unknown") ∧
    cache out.2 !! (round lat, round lon) = Some (Some "Unknown").
Proof.
  intros lat lon r Hr. repeat (apply elem_of_cons in Hr as [-> | Hr]);
    [by vm_compute .. | by apply elem_of_nil in Hr].
Qed.

(** C2, where the code departs from it.  The provider answers with an
    address that has a road and none of city, town, county, state and
    country.  The resolver stores [None] under the rounded key and
    returns [None], not "Unknown", and the row of the batch ends with a
    null region. *)
Lemma unmatched_address_stores_none :
  let lat := Some (-6200000)%Z in
  let lon := Some 106816666%Z in
  let s := env0 [located [("road", "Jalan Sudirman")]] in
  let out := get_region_cached (file:=positive) lat lon 1 s in
  let df := {| columns := wajib;
               rows := [row "d1" "c1" (-6200000) 106816666 20240315 None] |} in
  out.1 = Ok None ∧
  cache out.2 !! (round lat, round lon) = Some None ∧
  (map_all_regions df 1 s).1 =
    Ok {| columns := wajib ++ ["REGION"];
          rows := [row "d1" "c1" (-6200000) 106816666 20240315 None] |}.
Proof.
  by vm_compute.
Qed.

(** C5, where the code departs from it.  The provider raises: the call
    is made, "Unknown" is stored, and no delay follows the call. *)
Lemma provider_error_skips_delay :
  let lat := Some (-6200000)%Z in
  let lon := Some 106816666%Z in
  let out := get_region_cached (file:=positive) lat lon 1 (env0 [Raises]) in
  out.1 = Ok (Some "Unknown") ∧
  trace out.2 = [CacheIn (round lat, round lon); NetReverse lat lon;
                 CacheSet (round lat, round lon) (Some "Unknown")] ∧
  Forall (λ e, ¬ is_Sleep e) (trace out.2).
Proof.
  vm_compute. repeat split. repeat constructor; tauto.
Qed.

(** When the provider returns, on the other hand, the delay follows the
    call at once. *)
Lemma provider_answer_then_delay :
  let lat := Some (-6200000)%Z in
  let lon := Some 106816666%Z in
  let out := get_region_cached (file:=positive) lat lon 1 (env0 [Returns None]) in
  trace out.2 = [CacheIn (round lat, round lon); NetReverse lat lon; Sleep 1;
                 CacheSet (round lat, round lon) (Some "Unknown")].
Proof.
  by vm_compute.
Qed.

(** ** The cache file *)

Section RegionCacheFacts.
Context {num World file : Type} `{Float num}
        `{Pickle (gmap (key num) region) file}.

Local Abbreviation env := (env num World file).

Lemma save_region_cache_run (c : gmap (key num) region) path (s : env) :
  save_region_cache c path s =
    (Ok (), Env (cache s) (world s) (<[path := pickle_dump c]> (fs s))
                (trace s ++ [FileWrite path; Log (MsgCacheSaved (size c))])).
Proof.
  unfold save_region_cache, mbind, M_bind, open_wb, log_progress, emit.
  simpl. by rewrite <- app_assoc.
Qed.

(** C8.  Saving a mapping to a path and loading from that path returns
    the mapping that was saved, whatever the file held before; and
    loading from a path where there is no file returns the empty
    mapping, not an error. *)
Theorem cache_round_trip (c : gmap (key num) region) path (s s0 : env) :
  fs s0 !! path = None →
  (∃ s1 s2, save_region_cache c path s = (Ok (), s1) ∧
            load_region_cache path s1 = (Ok c, s2)) ∧
  (∃ s3, load_region_cache path s0 = (Ok ∅, s3)).
Proof.
  intros Habsent. split.
  - eexists _, _. split; [apply save_region_cache_run |].
    unfold load_region_cache, mbind, M_bind, open_rb. simpl.
    rewrite lookup_insert_eq, pickle_load_dump. simpl. reflexivity.
  - eexists. unfold load_region_cache, mbind, M_bind, open_rb.
    rewrite Habsent. simpl. reflexivity.
Qed.
End RegionCacheFacts.

Lemma cache_round_trip_witness :
  let c : gmap (key Z) region :=
    {[ (Some (-620000)%Z, Some 10681667%Z) := Some "Jakarta" ]} in
  (∃ s1 s2, save_region_cache c cache_path (env0 []) = (Ok (), s1) ∧
            load_region_cache cache_path s1 = (Ok c, s2)) ∧
  (∃ s3, load_region_cache cache_path (env0 []) = (Ok ∅, s3)).
Proof.
  intros c. apply (cache_round_trip c cache_path (env0 []) (env0 [])).
  reflexivity.
Defined.

(** ** The validation of the columns *)

Section PipelineFacts.
Context {num World file cell : Type} `{Float num} `{Geocoder num World}
        `{Pickle (gmap (key num) region) file} `{Calendar cell}.

Local Abbreviation env := (env num World file).
Local Abbreviation Row := (Row num cell).

Lemma assert_columns_missing (ws : list string) (df : DataFrame Row) (s : env) w :
  w ∈ ws → has_column w df = false →
  ∃ w', w' ∈ ws ∧ has_column w' df = false ∧
    assert_columns (World:=World) (file:=file) ws df s =
      (Raise (AssertionError ("Missing required column: " +:+ w')), s).
Proof.
  induction ws as [|w0 ws IH]; intros Hin Hw.
  - by apply elem_of_nil in Hin.
  - simpl. destruct (has_column w0 df) eqn:Hw0.
    + apply elem_of_cons in Hin as [-> | Hin]; [congruence |].
      destruct (IH Hin Hw) as (w' & Hin' & Hw' & Hrun).
      exists w'. split; [by apply list_elem_of_further | done].
    + exists w0. split; [apply list_elem_of_here | done].
Qed.

(** C6.  When one of DEVICE_ID, CIF, LATITUDE, LONGITUDE and
    CREATED_TIME is not a column of the export, the pipeline ends with an
    AssertionError whose message names a required column that is
    missing, and the environment is the one it started from: no row was
    joined, the cache file was not read, no region was resolved, nothing
    was written and no score was computed. *)
Theorem missing_column_aborts device_ids (df_prod : DataFrame Row) (s : env) w :
  w ∈ wajib → has_column w df_prod = false →
  ∃ w', w' ∈ wajib ∧ has_column w' df_prod = false ∧
    main_pipeline device_ids df_prod s =
      (Raise (AssertionError ("Missing required column: " +:+ w')), s).
Proof.
  intros Hin Hw.
  destruct (assert_columns_missing wajib df_prod s w Hin Hw)
    as (w' & Hin' & Hw' & Hrun).
  exists w'. split; [done |]. split; [done |].
  unfold main_pipeline, mbind, M_bind. by rewrite Hrun.
Qed.
End PipelineFacts.

Lemma missing_column_aborts_witness :
  let df_prod : DataFrame (Row Z (option Z)) :=
    {| columns := ["DEVICE_ID"; "CIF"; "LONGITUDE"; "CREATED_TIME"];
       rows := [row "d1" "c1" 0 106816666 20240315 None] |} in
  let s := env0 [located [("city", "Jakarta")]] in
  ∃ w', w' ∈ wajib ∧ has_column w' df_prod = false ∧
    main_pipeline {["d1"]} df_prod s =
      (Raise (AssertionError ("Missing required column: " +:+ w')), s).
Proof.
  intros df_prod s.
  apply (missing_column_aborts {["d1"]} df_prod s "LATITUDE").
  - vm_compute. set_solver.
  - reflexivity.
Defined.

(** ** The order of strings *)

Lemma String_as_OT_compare a b : String_as_OT.compare a b = String.compare a b.
Proof.
  reflexivity.
Qed.

Lemma str_le_iff a b : str_le a b ↔ a = b ∨ String_as_OT.lt a b.
Proof.
  unfold str_le, String.leb. rewrite <- String_as_OT_compare.
  destruct (String_as_OT.compare_spec a b) as [Heq | Hlt | Hgt].
  - naive_solver.
  - naive_solver.
  - split; [done |]. intros [-> | Hlt]; exfalso.
    + by eapply (irreflexivity String_as_OT.lt).
    + eapply (irreflexivity String_as_OT.lt). by etrans.
Qed.

#[export] Instance str_le_total : Total str_le.
Proof. intros a b. apply String.leb_total. Qed.

#[export] Instance str_le_trans : Transitive str_le.
Proof.
  intros a b c. rewrite !str_le_iff.
  intros [-> | Hab] [-> | Hbc]; eauto. right. by etrans.
Qed.

#[export] Instance str_le_refl : Reflexive str_le.
Proof. intros a. apply str_le_iff. by left. Qed.

(** The head of a sorted list is its least element. *)
Lemma head_merge_sort_least (l : list string) m v :
  head (merge_sort str_le l) = Some m → v ∈ l → str_le m v.
Proof.
  intros Hhead Hv.
  pose proof (StronglySorted_merge_sort str_le l) as Hsorted.
  apply (elem_of_Permutation_proper _ _ _ (merge_sort_Permutation str_le l)) in Hv.
  apply head_Some in Hhead as [l' Heq]. rewrite Heq in Hsorted, Hv.
  apply StronglySorted_inv in Hsorted as [_ Hall].
  apply elem_of_cons in Hv as [-> | Hv]; [done |].
  by eapply Forall_forall in Hall.
Qed.

Lemma head_merge_sort_elem_of (l : list string) m :
  head (merge_sort str_le l) = Some m → m ∈ l.
Proof.
  intros Hhead%head_Some_elem_of.
  by apply (elem_of_Permutation_proper _ _ _ (merge_sort_Permutation str_le l)) in Hhead.
Qed.

Lemma head_merge_sort_is_Some (l : list string) :
  l ≠ [] → is_Some (head (merge_sort str_le l)).
Proof.
  intros Hne. apply head_is_Some. intros Hnil. apply Hne.
  apply Permutation_nil_r. rewrite <- Hnil. symmetry.
  apply merge_sort_Permutation.
Qed.

(** ** Counting *)

Lemma notna_any_present {A} (values : list (option A)) :
  notna_any values = true ↔ omap id values ≠ [].
Proof.
  unfold notna_any. induction values as [|[a|] values IH]; simpl.
  - split; [discriminate | done].
  - split; [done |]. intros _. reflexivity.
  - exact IH.
Qed.

Lemma occurrences_absent v (values : list string) :
  v ∉ values → occurrences v values = 0.
Proof.
  unfold occurrences. intros Hv.
  induction values as [|w values IH]; [done |].
  apply not_elem_of_cons in Hv as [Hne Hv].
  rewrite filter_cons_False by congruence. by apply IH.
Qed.

(** What [mode()[0]] is when there is a non-null value: a value that
    occurs most often, and the least of those in the order of strings. *)
Lemma mode_head (values : list region) :
  let present := omap id values in
  present ≠ [] →
  ∃ m, head (mode values) = Some m ∧ m ∈ present ∧
       (∀ v, (occurrences v present ≤ occurrences m present)%nat) ∧
       (∀ v, v ∈ present → occurrences v present = occurrences m present →
             str_le m v).
Proof.
  intros present Hne. unfold mode. fold present.
  set (uniques := remove_dups present).
  set (counts := (λ v, occurrences v present) <$> uniques).
  set (most := max_list counts).
  assert (Hmost : ∀ v, v ∈ present → (occurrences v present ≤ most)%nat).
  { intros v Hv. apply max_list_elem_of_le.
    apply list_elem_of_fmap. exists v. split; [done |].
    by apply elem_of_remove_dups. }
  assert (Hbest : ∃ u, u ∈ uniques ∧ occurrences u present = most).
  { assert (Hc : counts ≠ []).
    { destruct present as [|p ps] eqn:Hp; [done |].
      assert (Hin : p ∈ uniques) by (apply elem_of_remove_dups; left).
      intros Hnil. apply (list_elem_of_fmap_2 (λ v, occurrences v (p :: ps))) in Hin.
      fold counts in Hin. rewrite Hnil in Hin. by apply elem_of_nil in Hin. }
    apply max_list_elem_of in Hc. fold most in Hc.
    apply list_elem_of_fmap in Hc as (u & Hu & Hin). eauto. }
  destruct Hbest as (u & Hu & Hcount).
  destruct (head_merge_sort_is_Some
              (filter (λ v, occurrences v present = most) uniques)) as [m Hm].
  { intros Hnil. assert (Hin : u ∈ filter (λ v, occurrences v present = most) uniques)
      by (apply list_elem_of_filter; done).
    rewrite Hnil in Hin. by apply elem_of_nil in Hin. }
  exists m. split; [done |].
  pose proof (head_merge_sort_elem_of _ _ Hm) as Hin.
  apply list_elem_of_filter in Hin as [Hmm Hin].
  apply (proj1 (elem_of_remove_dups _ _)) in Hin.
  split; [done |]. split.
  - intros v. rewrite Hmm. destruct (decide (v ∈ present)) as [Hv | Hv].
    + by apply Hmost.
    + rewrite occurrences_absent by done. lia.
  - intros v Hv Htie. apply (head_merge_sort_least _ _ _ Hm).
    apply list_elem_of_filter. split; [congruence |].
    by apply elem_of_remove_dups.
Qed.

Lemma filter_eq_NoDup (cif : string) (ks : list string) :
  NoDup ks → cif ∈ ks → length (filter (λ k, k = cif) ks) = 1.
Proof.
  induction 1 as [|k ks Hk Hnd IH]; intros Hin.
  - by apply elem_of_nil in Hin.
  - destruct (decide (k = cif)) as [-> | Hne].
    + rewrite filter_cons_True by done. simpl. f_equal.
      clear IH Hin. induction ks as [|k' ks IH]; [done |].
      apply not_elem_of_cons in Hk as [Hne Hk].
      apply NoDup_cons in Hnd as [_ Hnd].
      rewrite filter_cons_False by congruence. by apply IH.
    + rewrite filter_cons_False by done.
      apply elem_of_cons in Hin as [-> | Hin]; [done | by apply IH].
Qed.

Lemma score_label_table months devices :
  decision_table months devices
    (score_label months devices).1 (score_label months devices).2.
Proof.
  unfold decision_table, score_label.
  destruct months as [|[|months]], devices as [|[|devices]]; simpl;
    repeat split; intros; try lia; done.
Qed.

(** ** The classifier *)

Section ClassifierFacts.
Context {num World file cell : Type} `{Float num} `{Calendar cell}.

Local Abbreviation env := (env num World file).
Local Abbreviation Row := (Row num cell).
Implicit Types (df : DataFrame Row) (s : env) (group : list Row).

Lemma risk_result_fields b cif group :
  Risk_CIF (risk_result b cif group) = cif ∧
  (Risk_Score (risk_result b cif group), Risk_Label (risk_result b cif group))
    = score_label (group_months group) (group_devices b group) ∧
  Region (risk_result b cif group) = group_region group ∧
  Cohort (risk_result b cif group) = group_cohort group.
Proof.
  unfold risk_result. by destruct (score_label _ _).
Qed.

Lemma group_keys_NoDup (rws : list Row) : NoDup (group_keys rws).
Proof.
  unfold group_keys.
  eapply NoDup_Permutation_proper; [apply merge_sort_Permutation |].
  apply NoDup_remove_dups.
Qed.

Lemma elem_of_group_keys (rws : list Row) cif :
  cif ∈ group_keys rws ↔ Some cif ∈ CIF <$> rws.
Proof.
  unfold group_keys.
  rewrite (elem_of_Permutation_proper _ _ _ (merge_sort_Permutation _ _)).
  rewrite elem_of_remove_dups, list_elem_of_omap, list_elem_of_fmap.
  split.
  - intros (r & Hr & Hcif). by exists r.
  - intros (r & Hcif & Hr). by exists r.
Qed.

Lemma risk_results_CIF df : Risk_CIF <$> risk_results df = group_keys (rows df).
Proof.
  unfold risk_results, groupby_CIF. rewrite <- !list_fmap_compose.
  induction (group_keys (rows df)) as [|cif ks IH]; [done |].
  simpl. f_equal; [| exact IH]. apply risk_result_fields.
Qed.

Lemma elem_of_risk_results df r :
  r ∈ risk_results df →
  r = risk_result (has_column "DEVICE_ID" df) (Risk_CIF r)
        (group_rows (Risk_CIF r) (rows df)).
Proof.
  unfold risk_results, groupby_CIF. rewrite <- list_fmap_compose.
  intros (cif & -> & _)%list_elem_of_fmap. simpl.
  by rewrite (proj1 (risk_result_fields _ cif _)).
Qed.

(** Every customer identifier of the frame has the result of its group
    among the results. *)
Lemma risk_results_complete df cif :
  Some cif ∈ CIF <$> rows df →
  risk_result (has_column "DEVICE_ID" df) cif (group_rows cif (rows df))
    ∈ risk_results df.
Proof.
  intros Hin. apply elem_of_group_keys in Hin.
  unfold risk_results, groupby_CIF. rewrite <- list_fmap_compose.
  apply list_elem_of_fmap. by exists cif.
Qed.

Lemma risk_result_table b cif group :
  let r := risk_result b cif group in
  (Risk_Score r, Risk_Label r)
    = score_label (group_months group) (group_devices b group) ∧
  decision_table (group_months group) (group_devices b group)
    (Risk_Score r) (Risk_Label r).
Proof.
  intros r.
  destruct (risk_result_fields b cif group) as (_ & Hpair & _).
  split; [exact Hpair |].
  pose proof (score_label_table (group_months group) (group_devices b group))
    as Htable.
  fold r in Hpair. rewrite <- Hpair in Htable. exact Htable.
Qed.

Lemma group_region_dominant group :
  dominant_among (omap id (REGION <$> group)) (group_region group).
Proof.
  unfold dominant_among, group_region. split.
  - intros Hnil.
    destruct (notna_any _) eqn:Hany; [| done].
    apply notna_any_present in Hany. by destruct Hany.
  - intros Hne. rewrite (proj2 (notna_any_present _) Hne).
    destruct (mode_head _ Hne) as (m & Hm & Hrest). eauto.
Qed.

Lemma filter_Risk_CIF cif (results : list RiskResult) :
  length (filter (λ r, Risk_CIF r = cif) results) =
  length (filter (λ k, k = cif) (Risk_CIF <$> results)).
Proof.
  induction results as [|r results IH]; [done |]. simpl.
  destruct (decide (Risk_CIF r = cif)) as [Heq | Hne].
  - rewrite !filter_cons_True by done. simpl. by rewrite IH.
  - by rewrite !filter_cons_False by done.
Qed.

(** A frame with the columns that the classifier reads is classified
    without an exception. *)
Lemma compute_risk_scoring_run df s :
  has_column "CREATED_TIME" df = true →
  has_column "CIF" df = true →
  rows df = [] ∨ has_column "REGION" df = true →
  compute_risk_scoring df s =
    (Ok (pd_DataFrame (risk_results df)),
     Env (cache s) (world s) (fs s) (trace s ++ [Log MsgScoringStarted])).
Proof.
  intros Htime Hcif Hregion.
  unfold compute_risk_scoring, mbind, M_bind, log_progress, emit, getitem.
  rewrite Htime, Hcif. simpl.
  destruct Hregion as [Hnil | Hregion].
  - rewrite Hnil. reflexivity.
  - rewrite Hregion. by destruct (groupby_CIF (rows df)).
Qed.

(** C1.  On a frame with the columns that the classifier reads, the
    classifier returns, and every customer identifier of the frame has a
    result whose score and label are [score_label] of the number of
    distinct months and the number of distinct devices of the group of
    that customer; the score and the label of every result are so made,
    and nothing else; and [score_label] is the decision table: (1, 1)
    gives 1 "Transient", (>1, 1) gives 2 "Persistent", (1, >1) gives 2
    "Multi-device", (>1, >1) gives 3 "Critical", and no valid month
    gives 1 "Transient". *)
Theorem score_label_decision_table df s :
  has_column "CREATED_TIME" df = true →
  has_column "CIF" df = true →
  rows df = [] ∨ has_column "REGION" df = true →
  ∃ df_risk s',
    compute_risk_scoring df s = (Ok df_risk, s') ∧
    (∀ cif, Some cif ∈ CIF <$> rows df →
       let group := group_rows cif (rows df) in
       let months := group_months group in
       let devices := group_devices (has_column "DEVICE_ID" df) group in
       ∃ r, r ∈ rows df_risk ∧ Risk_CIF r = cif ∧
         (Risk_Score r, Risk_Label r) = score_label months devices ∧
         decision_table months devices (Risk_Score r) (Risk_Label r)) ∧
    (∀ r, r ∈ rows df_risk →
       let group := group_rows (Risk_CIF r) (rows df) in
       let months := group_months group in
       let devices := group_devices (has_column "DEVICE_ID" df) group in
       (Risk_Score r, Risk_Label r) = score_label months devices ∧
       decision_table months devices (Risk_Score r) (Risk_Label r)).
Proof.
  intros Htime Hcif Hregion. eexists _, _.
  split; [by apply compute_risk_scoring_run |]. cbn [rows pd_DataFrame].
  split.
  - intros cif Hin.
    exists (risk_result (has_column "DEVICE_ID" df) cif
              (group_rows cif (rows df))).
    split; [by apply risk_results_complete |].
    split; [apply risk_result_fields |].
    apply risk_result_table.
  - intros r Hr. apply elem_of_risk_results in Hr.
    pose proof (risk_result_table (has_column "DEVICE_ID" df) (Risk_CIF r)
                  (group_rows (Risk_CIF r) (rows df))) as Htable.
    cbv zeta in Htable. rewrite <- Hr in Htable. exact Htable.
Qed.

(** C7.  On a frame with the columns that the classifier reads, every
    customer identifier of the frame has exactly one result, every
    result is for a customer identifier of the frame, and a frame
    without rows gives a frame without results, with no exception. *)
Theorem one_result_per_customer df s :
  has_column "CREATED_TIME" df = true →
  has_column "CIF" df = true →
  rows df = [] ∨ has_column "REGION" df = true →
  ∃ df_risk s',
    compute_risk_scoring df s = (Ok df_risk, s') ∧
    (∀ cif, Some cif ∈ CIF <$> rows df →
            length (filter (λ r, Risk_CIF r = cif) (rows df_risk)) = 1) ∧
    (∀ r, r ∈ rows df_risk → Some (Risk_CIF r) ∈ CIF <$> rows df) ∧
    (rows df = [] → rows df_risk = []).
Proof.
  intros Htime Hcif Hregion. eexists _, _.
  split; [by apply compute_risk_scoring_run |]. simpl.
  split; [| split].
  - intros cif Hin. rewrite filter_Risk_CIF, risk_results_CIF.
    apply filter_eq_NoDup; [apply group_keys_NoDup |].
    by apply elem_of_group_keys.
  - intros r Hr. apply elem_of_group_keys. rewrite <- risk_results_CIF.
    by apply list_elem_of_fmap_2.
  - intros Hnil. unfold risk_results. by rewrite Hnil.
Qed.

(** C10.  On a frame with the columns that the classifier reads, the
    classifier returns, and every customer identifier of the frame has a
    result whose region is, when the group of that customer has a
    non-null region, a region of the group that no other value
    outnumbers and that comes first in the order of strings among the
    values that occur as often, and is "Unknown" when every region of
    the group is null; the region of every result is so made.  The
    order of the rows does not break the tie: of two rows, the first in
    "Pontianak" and the second in "Jakarta", the region is "Jakarta". *)
Theorem dominant_region df s :
  has_column "CREATED_TIME" df = true →
  has_column "CIF" df = true →
  rows df = [] ∨ has_column "REGION" df = true →
  (∃ df_risk s',
    compute_risk_scoring df s = (Ok df_risk, s') ∧
    (∀ cif, Some cif ∈ CIF <$> rows df →
       ∃ r, r ∈ rows df_risk ∧ Risk_CIF r = cif ∧
         dominant_among (omap id (REGION <$> group_rows cif (rows df)))
           (Region r)) ∧
    (∀ r, r ∈ rows df_risk →
       dominant_among (omap id (REGION <$> group_rows (Risk_CIF r) (rows df)))
         (Region r))) ∧
  (∀ r1 r2 : Row,
     REGION r1 = Some "Pontianak" → REGION r2 = Some "Jakarta" →
     group_region [r1; r2] = Some "Jakarta").
Proof.
  intros Htime Hcif Hregion. split.
  - eexists _, _. split; [by apply compute_risk_scoring_run |].
    cbn [rows pd_DataFrame]. split.
    + intros cif Hin.
      exists (risk_result (has_column "DEVICE_ID" df) cif
                (group_rows cif (rows df))).
      split; [by apply risk_results_complete |].
      destruct (risk_result_fields (has_column "DEVICE_ID" df) cif
                  (group_rows cif (rows df))) as (Hkey & _ & Hreg & _).
      split; [exact Hkey |]. rewrite Hreg. apply group_region_dominant.
    + intros r Hr. apply elem_of_risk_results in Hr.
      destruct (risk_result_fields (has_column "DEVICE_ID" df) (Risk_CIF r)
                  (group_rows (Risk_CIF r) (rows df))) as (_ & _ & Hreg & _).
      rewrite <- Hr in Hreg. rewrite Hreg. apply group_region_dominant.
  - intros r1 r2 H1 H2. unfold group_region. simpl. rewrite H1, H2.
    reflexivity.
Qed.
End ClassifierFacts.

(** The four scenarios of the specification, section 8, as one run. *)
Example scenarios_classified :
  (compute_risk_scoring scenarios (env0 [])).1 =
    Ok {| columns := RiskResult_columns;
          rows := [
            {| Risk_CIF := "C1"; Risk_Score := 1; Risk_Label := "Transient";
               Region := Some "Jakarta"; Cohort := Some 202403%Z |};
            {| Risk_CIF := "C2"; Risk_Score := 2; Risk_Label := "Persistent";
               Region := Some "Bandung"; Cohort := Some 202401%Z |};
            {| Risk_CIF := "C3"; Risk_Score := 2; Risk_Label := "Multi-device";
               Region := Some "Sidoarjo"; Cohort := Some 202403%Z |};
            {| Risk_CIF := "C4"; Risk_Score := 3; Risk_Label := "Critical";
               Region := Some "Bogor"; Cohort := Some 202401%Z |} ] |}.
Proof.
  by vm_compute.
Qed.

Lemma score_label_decision_table_witness :
  ∃ df_risk s',
    compute_risk_scoring scenarios (env0 []) = (Ok df_risk, s') ∧
    (∀ cif, Some cif ∈ CIF <$> rows scenarios →
       let group := group_rows cif (rows scenarios) in
       let months := group_months group in
       let devices := group_devices (has_column "DEVICE_ID" scenarios) group in
       ∃ r, r ∈ rows df_risk ∧ Risk_CIF r = cif ∧
         (Risk_Score r, Risk_Label r) = score_label months devices ∧
         decision_table months devices (Risk_Score r) (Risk_Label r)) ∧
    (∀ r, r ∈ rows df_risk →
       let group := group_rows (Risk_CIF r) (rows scenarios) in
       let months := group_months group in
       let devices := group_devices (has_column "DEVICE_ID" scenarios) group in
       (Risk_Score r, Risk_Label r) = score_label months devices ∧
       decision_table months devices (Risk_Score r) (Risk_Label r)).
Proof.
  apply (score_label_decision_table scenarios (env0 [])).
  - reflexivity.
  - reflexivity.
  - right. reflexivity.
Defined.

Lemma one_result_per_customer_witness :
  ∃ df_risk s',
    compute_risk_scoring scenarios (env0 []) = (Ok df_risk, s') ∧
    (∀ cif, Some cif ∈ CIF <$> rows scenarios →
            length (filter (λ r, Risk_CIF r = cif) (rows df_risk)) = 1) ∧
    (∀ r, r ∈ rows df_risk → Some (Risk_CIF r) ∈ CIF <$> rows scenarios) ∧
    (rows scenarios = [] → rows df_risk = []).
Proof.
  apply (one_result_per_customer scenarios (env0 [])).
  - reflexivity.
  - reflexivity.
  - right. reflexivity.
Defined.

Lemma dominant_region_witness :
  (∃ df_risk s',
    compute_risk_scoring scenarios (env0 []) = (Ok df_risk, s') ∧
    (∀ cif, Some cif ∈ CIF <$> rows scenarios →
       ∃ r, r ∈ rows df_risk ∧ Risk_CIF r = cif ∧
         dominant_among (omap id (REGION <$> group_rows cif (rows scenarios)))
           (Region r)) ∧
    (∀ r, r ∈ rows df_risk →
       dominant_among
         (omap id (REGION <$> group_rows (Risk_CIF r) (rows scenarios)))
         (Region r))) ∧
  (∀ r1 r2 : Row Z (option Z),
     REGION r1 = Some "Pontianak" → REGION r2 = Some "Jakarta" →
     group_region [r1; r2] = Some "Jakarta").
Proof.
  apply (dominant_region scenarios (env0 [])).
  - reflexivity.
  - reflexivity.
  - right. reflexivity.
Defined.

(** ** The summary *)

Section ImpactSummaryFacts.
Context {num World file : Type} `{Float num}.

Local Abbreviation env := (env num World file).

(** C9, as amended.  On a result set without customers the summary has
    no guard and never raises a ZeroDivisionError.  When the frame has
    no CIF column, as the frame that the classifier builds from no
    result, it raises a KeyError for CIF before it prints anything, and
    likewise for Risk_Label; when the frame has both columns, the two
    quotients are not-a-number and the summary is printed with them. *)
Theorem summary_without_customers (df_risk : DataFrame RiskResult) (s : env) :
  rows df_risk = [] →
  impacted_customer_summary df_risk s =
    (if negb (has_column "CIF" df_risk) then (Raise (KeyError "CIF"), s)
     else if negb (has_column "Risk_Label" df_risk) then
       (Raise (KeyError "Risk_Label"), s)
     else
       (Ok (), Env (cache s) (world s) (fs s)
                   (trace s ++ [Print LineRule; Print (LineTotal 0);
                                Print (LineTransient 0 NaN);
                                Print (LinePersistent 0 NaN);
                                Print LineRule; Print LineNote;
                                Log MsgSummaryDone]))) ∧
  (impacted_customer_summary df_risk s).1 ≠ Raise ZeroDivisionError.
Proof.
  intros Hrows.
  assert (Hrun : impacted_customer_summary df_risk s =
    (if negb (has_column "CIF" df_risk) then (Raise (KeyError "CIF"), s)
     else if negb (has_column "Risk_Label" df_risk) then
       (Raise (KeyError "Risk_Label"), s)
     else
       (Ok (), Env (cache s) (world s) (fs s)
                   (trace s ++ [Print LineRule; Print (LineTotal 0);
                                Print (LineTransient 0 NaN);
                                Print (LinePersistent 0 NaN);
                                Print LineRule; Print LineNote;
                                Log MsgSummaryDone])))).
  { unfold impacted_customer_summary, mbind, M_bind, getitem.
    rewrite Hrows.
    destruct (has_column "CIF" df_risk); [| reflexivity].
    destruct (has_column "Risk_Label" df_risk); [| reflexivity].
    unfold print, log_progress, emit. simpl.
    by rewrite <- !app_assoc. }
  split; [exact Hrun |]. rewrite Hrun.
  destruct (has_column "CIF" df_risk); [| discriminate].
  destruct (has_column "Risk_Label" df_risk); discriminate.
Qed.
End ImpactSummaryFacts.

Lemma summary_without_customers_witness :
  impacted_customer_summary (pd_DataFrame []) (env0 []) =
    (Raise (KeyError "CIF"), env0 []) ∧
  (impacted_customer_summary (pd_DataFrame []) (env0 [])).1
    ≠ Raise ZeroDivisionError.
Proof.
  apply (summary_without_customers (pd_DataFrame []) (env0 [])).
  reflexivity.
Defined.

(** C9, as stated, fails: on the frame with the columns of the results and
    no row the summary raises nothing and prints both shares as
    not-a-number. *)
Lemma summary_without_customers_counterexample :
  let df_risk := {| columns := RiskResult_columns; rows := [] |} in
  let out := impacted_customer_summary df_risk (env0 []) in
  out.1 = Ok () ∧
  out.1 ≠ Raise ZeroDivisionError ∧
  trace out.2 = [Print LineRule; Print (LineTotal 0);
                 Print (LineTransient 0 NaN); Print (LinePersistent 0 NaN);
                 Print LineRule; Print LineNote; Log MsgSummaryDone].
Proof.
  vm_compute. repeat split. discriminate.
Qed.

(** * Further properties *)

(** ** The resolver, one call *)

Section ResolverMore.
Context {num World file : Type} `{Float num} `{Geocoder num World}.

Local Abbreviation env := (env num World file).
Implicit Types (s : env) (lat lon : option num) (delay : nat).

Lemma get_region_cached_fs lat lon delay s :
  fs (get_region_cached lat lon delay s).2 = fs s.
Proof.
  destruct (sentinel lat lon) eqn:Hs.
  - by rewrite get_region_cached_sentinel.
  - destruct (cache s !! (round lat, round lon)) as [v|] eqn:Hc.
    + by rewrite (get_region_cached_hit _ _ _ _ v).
    + by rewrite get_region_cached_miss.
Qed.

(** X1.  A call of the resolver never raises, whatever the provider does
    and whatever the cache holds, and it leaves the files alone. *)
Theorem resolver_never_raises lat lon delay s :
  (∃ v, (get_region_cached lat lon delay s).1 = Ok v) ∧
  fs (get_region_cached lat lon delay s).2 = fs s.
Proof.
  split; [apply get_region_cached_returns | apply get_region_cached_fs].
Qed.

(** X2.  When the coordinates pass line 51 and the cache has an entry
    under their rounded key, the call returns the stored value, be it a
    name, "Unknown" or [None]; it tests and reads the cache and does
    nothing else: no call of the provider, no delay, no write. *)
Theorem cached_key_not_resolved_again lat lon delay s v :
  sentinel lat lon = false →
  cache s !! (round lat, round lon) = Some v →
  get_region_cached lat lon delay s =
    (Ok v, Env (cache s) (world s) (fs s)
               (trace s ++ [CacheIn (round lat, round lon);
                            CacheGet (round lat, round lon)])).
Proof.
  apply get_region_cached_hit.
Qed.

(** X3.  When the coordinates pass line 51, the cache has no entry under
    their rounded key and the provider returns (a location or none), the
    provider is called once, with the coordinates as they are and not
    rounded, the delay follows at once, and the region read off the answer
    is stored under the rounded key and returned. *)
Theorem miss_calls_provider_once lat lon delay s location :
  sentinel lat lon = false →
  cache s !! (round lat, round lon) = None →
  (reverse lat lon (world s)).1 = Returns location →
  let k := (round lat, round lon) in
  let v := response_region (Returns location) in
  get_region_cached lat lon delay s =
    (Ok v, Env (<[k := v]> (cache s)) (reverse lat lon (world s)).2 (fs s)
               (trace s ++ [CacheIn k; NetReverse lat lon; Sleep delay;
                            CacheSet k v])).
Proof.
  intros Hs Hc Hr. rewrite get_region_cached_miss by done.
  simpl. by rewrite Hr.
Qed.

(** X4.  The region of an address is the value of the first of city,
    town, county, state and country that is present and not empty; an
    empty string counts as absent.  When none is, the region is whatever
    the address has for country: [None], or the empty string. *)
Theorem address_region_first_present (address : gmap string string) :
  (∀ i f v,
     preferred_fields !! i = Some f →
     address !! f = Some v → v ≠ "" →
     (∀ j g, j < i → preferred_fields !! j = Some g →
             truthy (address !! g) = false) →
     address_region address = Some v) ∧
  ((∀ f, f ∈ preferred_fields → truthy (address !! f) = false) →
   address_region address = address !! "country").
Proof.
  assert (Htruthy : ∀ v, v ≠ "" → truthy (Some v) = true).
  { intros v Hv. simpl. destruct (String.eqb_spec v ""); done. }
  assert (Hl : ∀ a b, truthy a = true → py_or a b = a)
    by (intros a b Ha; unfold py_or; by rewrite Ha).
  assert (Hr : ∀ a b, truthy a = false → py_or a b = b)
    by (intros a b Ha; unfold py_or; by rewrite Ha).
  split.
  - intros i f v Hf Hv Hne Hearlier.
    apply Htruthy in Hne. rewrite <- Hv in Hne. unfold address_region.
    destruct i as [|[|[|[|[|i]]]]]; simpl in Hf; [| | | | | done];
      injection Hf as <-.
    + by rewrite !(Hl (address !! "city")) by done.
    + rewrite (Hr (address !! "city")) by (apply (Hearlier 0); [lia | done]).
      by rewrite !(Hl (address !! "town")) by done.
    + rewrite (Hr (address !! "city")) by (apply (Hearlier 0); [lia | done]).
      rewrite (Hr (address !! "town")) by (apply (Hearlier 1); [lia | done]).
      by rewrite !(Hl (address !! "county")) by done.
    + rewrite (Hr (address !! "city")) by (apply (Hearlier 0); [lia | done]).
      rewrite (Hr (address !! "town")) by (apply (Hearlier 1); [lia | done]).
      rewrite (Hr (address !! "county")) by (apply (Hearlier 2); [lia | done]).
      by rewrite !(Hl (address !! "state")) by done.
    + rewrite (Hr (address !! "city")) by (apply (Hearlier 0); [lia | done]).
      rewrite (Hr (address !! "town")) by (apply (Hearlier 1); [lia | done]).
      rewrite (Hr (address !! "county")) by (apply (Hearlier 2); [lia | done]).
      by rewrite (Hr (address !! "state")) by (apply (Hearlier 3); [lia | done]).
  - intros Hnone. unfold address_region.
    rewrite (Hr (address !! "city")) by (apply Hnone; set_solver).
    rewrite (Hr (address !! "town")) by (apply Hnone; set_solver).
    rewrite (Hr (address !! "county")) by (apply Hnone; set_solver).
    by rewrite (Hr (address !! "state")) by (apply Hnone; set_solver).
Qed.
End ResolverMore.

Lemma cached_key_not_resolved_again_witness :
  let k : key Z := (Some (-620000)%Z, Some 10681667%Z) in
  let s : env Z (list response) positive :=
    {| cache := {[ k := Some "Unknown" ]};
       world := [located [("city", "Jakarta")]]; fs := ∅; trace := [] |} in
  get_region_cached (Some (-6200001)%Z) (Some 106816666%Z) 1 s =
    (Ok (Some "Unknown"),
     Env (cache s) (world s) (fs s) (trace s ++ [CacheIn k; CacheGet k])).
Proof.
  intros k s.
  apply (cached_key_not_resolved_again
           (Some (-6200001)%Z) (Some 106816666%Z) 1 s (Some "Unknown")).
  - reflexivity.
  - reflexivity.
Defined.

Lemma miss_calls_provider_once_witness :
  let lat := Some (-6200001)%Z in
  let lon := Some 106816666%Z in
  let location :=
    Some {| raw_address :=
              Some (list_to_map [("town", "Depok"); ("state", "Jawa Barat")]) |} in
  let s := env0 [Returns location] in
  let k := (round lat, round lon) in
  let v := response_region (Returns location) in
  get_region_cached (file:=positive) lat lon 1 s =
    (Ok v, Env (<[k := v]> (cache s)) (reverse lat lon (world s)).2 (fs s)
               (trace s ++ [CacheIn k; NetReverse lat lon; Sleep 1;
                            CacheSet k v])).
Proof.
  intros lat lon location s.
  apply (miss_calls_provider_once lat lon 1 s location).
  - reflexivity.
  - reflexivity.
  - reflexivity.
Defined.

Lemma address_region_first_present_witness :
  address_region (list_to_map [("city", ""); ("town", "Depok");
                               ("state", "Jawa Barat")]) = Some "Depok".
Proof.
  apply (proj1 (address_region_first_present
                  (list_to_map [("city", ""); ("town", "Depok");
                                ("state", "Jawa Barat")]))
               1 "town" "Depok").
  - reflexivity.
  - reflexivity.
  - discriminate.
  - intros j g Hj Hg. destruct j as [|j]; [| lia].
    injection Hg as <-. reflexivity.
Defined.

(** ** The resolver, a batch *)

Section BatchFacts.
Context {num World file cell : Type} `{Float num} `{Geocoder num World}.

Local Abbreviation env := (env num World file).
Local Abbreviation Row := (Row num cell).
Implicit Types (s : env) (df : DataFrame Row) (delay : nat).

Lemma resolved_in_keep (c c' : gmap (key num) region) (r : Row) v :
  (∀ k w, c !! k = Some w → c' !! k = Some w) →
  resolved_in c r v → resolved_in c' r v.
Proof.
  unfold resolved_in. intros Hkeep. destruct (row_sentinel r); auto.
Qed.

Lemma progress_apply_resolve delay (rws : list Row) s :
  ∃ values,
    progress_apply (resolve_row delay) rws s =
      (Ok values, (progress_apply (resolve_row delay) rws s).2) ∧
    Forall2 (resolved_in (cache (progress_apply (resolve_row delay) rws s).2))
            rws values ∧
    resolve_steps s (progress_apply (resolve_row delay) rws s).2 ∧
    fs (progress_apply (resolve_row delay) rws s).2 = fs s.
Proof.
  revert s. induction rws as [|r rws IH]; intros s.
  - exists []. simpl. repeat split; [constructor | apply rtc_refl].
  - simpl. unfold mbind, M_bind.
    pose proof (get_region_cached_returns (LATITUDE r) (LONGITUDE r) delay s)
      as [v Hv].
    pose proof (resolve_step_call (LATITUDE r) (LONGITUDE r) delay s) as Hstep.
    pose proof (get_region_cached_fs (LATITUDE r) (LONGITUDE r) delay s) as Hfs.
    assert (Hin : resolved_in
              (cache (get_region_cached (LATITUDE r) (LONGITUDE r) delay s).2) r v).
    { unfold resolved_in, row_sentinel, row_key.
      destruct (sentinel (LATITUDE r) (LONGITUDE r)) eqn:Hs.
      - rewrite get_region_cached_sentinel in Hv by done. simpl in Hv. congruence.
      - destruct (get_region_cached_stores _ _ delay s Hs) as (w & Hw & Hc).
        congruence. }
    unfold resolve_row at 1 3 5 7 9.
    destruct (get_region_cached (LATITUDE r) (LONGITUDE r) delay s)
      as [res s1] eqn:Hcall. simpl in Hv, Hstep, Hfs, Hin. subst res.
    destruct (IH s1) as (values & Hrun & Hall & Hsteps & Hfs').
    rewrite Hrun. simpl. exists (v :: values).
    split; [done |]. split; [| split].
    + constructor; [| done].
      eapply resolved_in_keep; [| exact Hin].
      intros k w. by apply resolve_steps_keep.
    + by eapply rtc_l.
    + congruence.
Qed.

Lemma progress_apply_ext {R A} (f g : R → M num World file A) (l : list R) s :
  (∀ r s, f r s = g r s) →
  progress_apply f l s = progress_apply g l s.
Proof.
  intros Hfg. revert s. induction l as [|r l IH]; intros s; [done |].
  simpl. unfold mbind, M_bind. rewrite Hfg.
  destruct (g r s) as [[a|e] s1]; [| done]. by rewrite IH.
Qed.

Lemma zip_with_set_REGION (P : Row → region → Prop) (rws : list Row) values :
  Forall2 P rws values →
  Forall2 (λ r r', same_cells r r' ∧ P r (REGION r')) rws
          (zip_with set_REGION rws values).
Proof.
  induction 1 as [|r v rws values Hrv _ IH]; simpl; constructor; [| done].
  by repeat split.
Qed.

Lemma map_all_regions_resolved df delay s :
  has_column "LATITUDE" df = true →
  has_column "LONGITUDE" df = true →
  ∃ df' s',
    map_all_regions df delay s = (Ok df', s') ∧
    columns df' = (if has_column "REGION" df then columns df
                   else (columns df ++ ["REGION"])%list) ∧
    Forall2 (λ r r', same_cells r r' ∧ resolved_in (cache s') r (REGION r'))
            (rows df) (rows df') ∧
    (∀ k v, cache s !! k = Some v → cache s' !! k = Some v) ∧
    fs s' = fs s.
Proof.
  intros Hlat Hlon.
  unfold map_all_regions, mbind, M_bind, log_progress, emit. simpl.
  set (s0 := Env (cache s) (world s) (fs s) (trace s ++ [Log MsgMappingStarted])).
  destruct (progress_apply_resolve delay (rows df) s0)
    as (values & Hrun & Hall & Hsteps & Hfs).
  erewrite (progress_apply_ext _ (resolve_row delay))
    by (intros; unfold getitem, resolve_row; by rewrite Hlat, Hlon).
  rewrite Hrun.
  eexists _, _. split; [reflexivity |]. simpl.
  split; [done |]. split; [| split].
  - by apply zip_with_set_REGION.
  - intros k v Hk. by apply (resolve_steps_keep s0).
  - exact Hfs.
Qed.

(** X5.  On a frame with rows and with the columns LATITUDE and
    LONGITUDE, the batch returns, with one row for each row of the
    frame, in the same order and with the other cells untouched; REGION is added to the columns if it was not there.  The
    region of a row that line 51 turns away is "Unknown" and the region of
    any other row is the entry of the cache, as the batch leaves it, under
    the rounded key of the row.  Every entry that the cache had before
    the batch is still there, and no file is touched. *)
Theorem batch_resolved_from_cache df delay s :
  rows df ≠ [] →
  has_column "LATITUDE" df = true →
  has_column "LONGITUDE" df = true →
  ∃ df' s',
    map_all_regions df delay s = (Ok df', s') ∧
    columns df' = (if has_column "REGION" df then columns df
                   else (columns df ++ ["REGION"])%list) ∧
    Forall2 (λ r r', same_cells r r' ∧ resolved_in (cache s') r (REGION r'))
            (rows df) (rows df') ∧
    (∀ k v, cache s !! k = Some v → cache s' !! k = Some v) ∧
    fs s' = fs s.
Proof.
  intros _. apply map_all_regions_resolved.
Qed.

Lemma progress_apply_warm delay (rws : list Row) s :
  Forall (λ r, row_sentinel r = true ∨ is_Some (cache s !! row_key r)) rws →
  ∃ values tr,
    progress_apply (resolve_row delay) rws s =
      (Ok values, Env (cache s) (world s) (fs s) (trace s ++ tr)) ∧
    Forall quiet tr.
Proof.
  revert s. induction rws as [|r rws IH]; intros s Hall.
  - exists [], []. simpl. rewrite app_nil_r. destruct s. by split.
  - apply Forall_cons in Hall as [Hr Hall]. simpl. unfold mbind, M_bind.
    unfold resolve_row at 1.
    assert (Hcall : ∃ v tr1,
      get_region_cached (LATITUDE r) (LONGITUDE r) delay s =
        (Ok v, Env (cache s) (world s) (fs s) (trace s ++ tr1)) ∧
      Forall quiet tr1).
    { destruct (sentinel (LATITUDE r) (LONGITUDE r)) eqn:Hs.
      - exists Unknown, []. rewrite get_region_cached_sentinel by done.
        rewrite app_nil_r. destruct s. by split.
      - destruct Hr as [Hr | [v Hv]]; [unfold row_sentinel in Hr; congruence |].
        exists v, [CacheIn (row_key r); CacheGet (row_key r)].
        split; [by apply get_region_cached_hit |].
        repeat constructor; simpl; tauto. }
    destruct Hcall as (v & tr1 & -> & Hq1).
    destruct (IH (Env (cache s) (world s) (fs s) (trace s ++ tr1)) Hall)
      as (values & tr2 & Hrun & Hq2).
    rewrite Hrun. simpl. exists (v :: values), (tr1 ++ tr2)%list.
    split; [by rewrite app_assoc |]. by apply Forall_app.
Qed.

Lemma map_all_regions_warm df delay s :
  has_column "LATITUDE" df = true →
  has_column "LONGITUDE" df = true →
  Forall (λ r, row_sentinel r = true ∨ is_Some (cache s !! row_key r)) (rows df) →
  ∃ df' tr,
    map_all_regions df delay s =
      (Ok df', Env (cache s) (world s) (fs s)
                   (trace s ++ Log MsgMappingStarted :: tr)) ∧
    Forall quiet tr.
Proof.
  intros Hlat Hlon Hall.
  unfold map_all_regions, mbind, M_bind, log_progress, emit. simpl.
  set (s0 := Env (cache s) (world s) (fs s) (trace s ++ [Log MsgMappingStarted])).
  destruct (progress_apply_warm delay (rows df) s0)
    as (values & tr & Hrun & Hq); [done |].
  erewrite (progress_apply_ext _ (resolve_row delay))
    by (intros; unfold getitem, resolve_row; by rewrite Hlat, Hlon).
  rewrite Hrun. simpl.
  eexists _, tr. split; [| done]. by rewrite <- app_assoc.
Qed.

(** X6.  On a frame with rows and with the columns LATITUDE and
    LONGITUDE, when the cache already has an entry for the key of every
    row that passes line 51, the batch calls the provider for no row, waits
    for none and writes nothing to the cache: the cache and the provider
    are as they were, and the trace gains the line of the log, and tests
    and reads of the cache. *)
Theorem warm_cache_batch_is_offline df delay s :
  rows df ≠ [] →
  has_column "LATITUDE" df = true →
  has_column "LONGITUDE" df = true →
  Forall (λ r, row_sentinel r = true ∨ is_Some (cache s !! row_key r)) (rows df) →
  ∃ df' tr,
    map_all_regions df delay s =
      (Ok df', Env (cache s) (world s) (fs s)
                   (trace s ++ Log MsgMappingStarted :: tr)) ∧
    Forall quiet tr.
Proof.
  intros _. apply map_all_regions_warm.
Qed.

(** X21.  On a frame with rows that has no LATITUDE column the batch
    raises a KeyError for LATITUDE, and on one that has LATITUDE and no
    LONGITUDE a KeyError for LONGITUDE; in both cases the line of the log
    is out, and the provider is not called, the cache is not touched and
    no row is resolved. *)
Theorem batch_missing_coordinate_column df delay s :
  rows df ≠ [] →
  let s' := Env (cache s) (world s) (fs s) (trace s ++ [Log MsgMappingStarted]) in
  (has_column "LATITUDE" df = false →
   map_all_regions df delay s = (Raise (KeyError "LATITUDE"), s')) ∧
  (has_column "LATITUDE" df = true → has_column "LONGITUDE" df = false →
   map_all_regions df delay s = (Raise (KeyError "LONGITUDE"), s')).
Proof.
  intros Hrows s'.
  unfold map_all_regions, mbind, M_bind, log_progress, emit. simpl.
  destruct (rows df) as [|r rws]; [done |]. simpl.
  unfold mbind, M_bind, getitem.
  split.
  - by intros ->.
  - by intros -> ->.
Qed.
End BatchFacts.

Lemma batch_resolved_from_cache_witness :
  ∃ df' s',
    map_all_regions scenarios 1 (env0 [located [("city", "Jakarta")]]) = (Ok df', s') ∧
    columns df' = (if has_column "REGION" scenarios then columns scenarios
                   else (columns scenarios ++ ["REGION"])%list) ∧
    Forall2 (λ r r', same_cells r r' ∧ resolved_in (cache s') r (REGION r'))
            (rows scenarios) (rows df') ∧
    (∀ k v, cache (env0 [located [("city", "Jakarta")]]) !! k = Some v →
            cache s' !! k = Some v) ∧
    fs s' = fs (env0 [located [("city", "Jakarta")]]).
Proof.
  apply (batch_resolved_from_cache scenarios 1 (env0 [located [("city", "Jakarta")]])).
  - discriminate.
  - reflexivity.
  - reflexivity.
Defined.

Lemma warm_cache_batch_is_offline_witness :
  let df : DataFrame (Row Z (option Z)) :=
    {| columns := wajib;
       rows := [row "d1" "C1" (-6200001) 106816666 20240305 None;
                row "d1" "C1" 0 0 20240306 None] |} in
  let s : env Z (list response) positive :=
    {| cache := {[ (Some (-620000)%Z, Some 10681667%Z) := Some "Jakarta" ]};
       world := []; fs := ∅; trace := [] |} in
  ∃ df' tr,
    map_all_regions df 1 s =
      (Ok df', Env (cache s) (world s) (fs s)
                   (trace s ++ Log MsgMappingStarted :: tr)) ∧
    Forall quiet tr.
Proof.
  intros df s. apply (warm_cache_batch_is_offline df 1 s).
  - discriminate.
  - reflexivity.
  - reflexivity.
  - constructor; [right; by exists (Some "Jakarta") |].
    constructor; [left; reflexivity | constructor].
Defined.


Lemma batch_missing_coordinate_column_witness :
  let df : DataFrame (Row Z (option Z)) :=
    {| columns := ["DEVICE_ID"; "CIF"; "LONGITUDE"; "CREATED_TIME"];
       rows := [row "d1" "c1" (-6200000) 106816666 20240315 None] |} in
  let s := env0 [located [("city", "Jakarta")]] in
  map_all_regions df 1 s =
    (Raise (KeyError "LATITUDE"),
     Env (cache s) (world s) (fs s) (trace s ++ [Log MsgMappingStarted])).
Proof.
  intros df s.
  apply (proj1 (batch_missing_coordinate_column df 1 s ltac:(discriminate))).
  reflexivity.
Defined.

(** ** The cache file, again *)

Section RegionCacheMore.
Context {num World file : Type} `{Float num}
        `{Pickle (gmap (key num) region) file}.

Local Abbreviation env := (env num World file).

Lemma load_region_cache_readable path (s : env) f c :
  fs s !! path = Some f →
  pickle_load f = Some c →
  load_region_cache path s =
    (Ok c, Env (cache s) (world s) (fs s)
               (trace s ++ [FileRead path; Log (MsgCacheLoaded (size c))])).
Proof.
  intros Hf Hload.
  unfold load_region_cache, mbind, M_bind, open_rb.
  rewrite Hf. simpl. rewrite Hload. simpl.
  unfold log_progress, emit. simpl. by rewrite <- app_assoc.
Qed.

Lemma load_region_cache_unreadable path (s : env) f :
  fs s !! path = Some f →
  pickle_load f = None →
  load_region_cache path s =
    (Raise UnpicklingError,
     Env (cache s) (world s) (fs s) (trace s ++ [FileRead path])).
Proof.
  intros Hf Hload.
  unfold load_region_cache, mbind, M_bind, open_rb.
  rewrite Hf. simpl. by rewrite Hload.
Qed.

(** X7.  A cache file that is there and does not unpickle makes the load
    raise; the failure is not taken for a missing file, and no empty
    mapping is returned in its place. *)
Theorem unreadable_cache_raises path (s : env) f :
  fs s !! path = Some f →
  pickle_load f = None →
  load_region_cache path s =
    (Raise UnpicklingError,
     Env (cache s) (world s) (fs s) (trace s ++ [FileRead path])).
Proof.
  apply load_region_cache_unreadable.
Qed.

(** X8.  Saving replaces the one file it is given and no other, with the
    mapping it is given: after two saves to a path the load returns the
    second mapping, and a file at another path is as it was. *)
Theorem save_replaces_one_file (c1 c2 : gmap (key num) region) path other (s : env) :
  other ≠ path →
  ∃ s1 s2 s3,
    save_region_cache c1 path s = (Ok (), s1) ∧
    save_region_cache c2 path s1 = (Ok (), s2) ∧
    load_region_cache path s2 = (Ok c2, s3) ∧
    fs s2 !! other = fs s !! other ∧
    cache s2 = cache s.
Proof.
  intros Hother. eexists _, _, _.
  split; [apply save_region_cache_run |].
  split; [apply save_region_cache_run |]. simpl.
  split; [| split; [| done]].
  - unfold load_region_cache, mbind, M_bind, open_rb. simpl.
    rewrite lookup_insert_eq, pickle_load_dump. reflexivity.
  - by rewrite !lookup_insert_ne.
Qed.
End RegionCacheMore.

Lemma unreadable_cache_raises_witness :
  let s : env Z (list response) positive :=
    {| cache := ∅; world := []; fs := {[ cache_path := 2%positive ]}; trace := [] |} in
  load_region_cache cache_path s =
    (Raise UnpicklingError,
     Env (cache s) (world s) (fs s) (trace s ++ [FileRead cache_path])).
Proof.
  intros s. apply (unreadable_cache_raises cache_path s 2%positive).
  - reflexivity.
  - reflexivity.
Defined.

Lemma save_replaces_one_file_witness :
  let c1 : gmap (key Z) region := {[ (Some 1%Z, Some 2%Z) := Some "Jakarta" ]} in
  let c2 : gmap (key Z) region := {[ (Some 3%Z, Some 4%Z) := Some "Bogor" ]} in
  let s := env0 [] in
  ∃ s1 s2 s3,
    save_region_cache c1 cache_path s = (Ok (), s1) ∧
    save_region_cache c2 cache_path s1 = (Ok (), s2) ∧
    load_region_cache cache_path s2 = (Ok c2, s3) ∧
    fs s2 !! "risk_heatmap.html" = fs s !! "risk_heatmap.html" ∧
    cache s2 = cache s.
Proof.
  intros c1 c2 s.
  apply (save_replaces_one_file c1 c2 cache_path "risk_heatmap.html" s).
  discriminate.
Defined.

(** ** The join *)

Section JoinMore.
Context {num World file cell : Type} `{Float num}.

Local Abbreviation env := (env num World file).
Local Abbreviation Row := (Row num cell).

Lemma filter_production_run (df_prod : DataFrame Row) (device_ids : gset string)
    (s : env) :
  has_column "DEVICE_ID" df_prod = true →
  has_column "CIF" df_prod = true →
  filter_production_by_deviceid df_prod device_ids s =
    (Ok {| columns := columns df_prod; rows := joined_rows df_prod device_ids |},
     Env (cache s) (world s) (fs s)
         (trace s ++ [Log (MsgMatch
                             (length (joined_rows df_prod device_ids))
                             (nunique (CIF <$> joined_rows df_prod device_ids)))])).
Proof.
  intros Hdev Hcif.
  unfold filter_production_by_deviceid, mbind, M_bind, getitem.
  rewrite Hdev. simpl.
  change (has_column "CIF" _) with (has_column "CIF" df_prod).
  by rewrite Hcif.
Qed.

(** X20.  The join reads the column DEVICE_ID and then the column CIF:
    on an export without DEVICE_ID it raises a KeyError for it, and on
    one with DEVICE_ID and without CIF a KeyError for CIF, in both cases
    before it logs anything.  On an export with both it returns a frame
    with the columns of the export and, in their order, the rows whose
    device identifier, written as a string, is flagged, and only those; a
    row whose device identifier is null is kept exactly when the string
    "nan" is flagged.  It logs the number of rows it kept and the number
    of their distinct customers. *)
Theorem join_keeps_flagged_rows (df_prod : DataFrame Row) (device_ids : gset string)
    (s : env) :
  (has_column "DEVICE_ID" df_prod = false →
   filter_production_by_deviceid df_prod device_ids s =
     (Raise (KeyError "DEVICE_ID"), s)) ∧
  (has_column "DEVICE_ID" df_prod = true → has_column "CIF" df_prod = false →
   filter_production_by_deviceid df_prod device_ids s =
     (Raise (KeyError "CIF"), s)) ∧
  (has_column "DEVICE_ID" df_prod = true → has_column "CIF" df_prod = true →
   ∃ joined,
     filter_production_by_deviceid df_prod device_ids s =
       (Ok joined,
        Env (cache s) (world s) (fs s)
            (trace s ++ [Log (MsgMatch (length (rows joined))
                                       (nunique (CIF <$> rows joined)))])) ∧
     columns joined = columns df_prod ∧
     rows joined `sublist_of` rows df_prod ∧
     (∀ r, r ∈ rows joined ↔
           r ∈ rows df_prod ∧ astype_str (DEVICE_ID r) ∈ device_ids) ∧
     (∀ r, r ∈ rows df_prod → DEVICE_ID r = None →
           (r ∈ rows joined ↔ "nan" ∈ device_ids))).
Proof.
  split; [| split].
  - intros Hdev.
    unfold filter_production_by_deviceid, mbind, M_bind, getitem.
    by rewrite Hdev.
  - intros Hdev Hcif.
    unfold filter_production_by_deviceid, mbind, M_bind, getitem.
    rewrite Hdev. simpl.
    change (has_column "CIF" _) with (has_column "CIF" df_prod).
    by rewrite Hcif.
  - intros Hdev Hcif.
    exists {| columns := columns df_prod; rows := joined_rows df_prod device_ids |}.
    split; [by apply filter_production_run |]. cbn [columns rows].
    unfold joined_rows.
    split; [done |]. split; [apply sublist_filter |]. split.
    + intros r. rewrite list_elem_of_filter. tauto.
    + intros r Hr Hnull. rewrite list_elem_of_filter, Hnull. simpl. tauto.
Qed.
End JoinMore.

Lemma join_keeps_flagged_rows_witness :
  let df_prod : DataFrame (Row Z (option Z)) :=
    {| columns := ["DEVICE_ID"; "LATITUDE"; "LONGITUDE"; "CREATED_TIME"];
       rows := [row "d1" "c1" (-6200000) 106816666 20240315 None] |} in
  filter_production_by_deviceid df_prod flagged_devices (env0 []) =
    (Raise (KeyError "CIF"), env0 []).
Proof.
  intros df_prod.
  apply (proj1 (proj2 (join_keeps_flagged_rows df_prod flagged_devices (env0 [])))).
  - reflexivity.
  - reflexivity.
Defined.

(** ** The pipeline *)

Section PipelineMore.
Context {num World file cell : Type} `{Float num} `{Geocoder num World}
        `{Pickle (gmap (key num) region) file} `{Calendar cell}.

Local Abbreviation env := (env num World file).
Local Abbreviation Row := (Row num cell).
Implicit Types (s : env) (df_prod : DataFrame Row) (device_ids : gset string).

Lemma assert_columns_ok (ws : list string) df_prod s :
  (∀ w, w ∈ ws → has_column w df_prod = true) →
  assert_columns (World:=World) (file:=file) ws df_prod s = (Ok (), s).
Proof.
  induction ws as [|w ws IH]; intros Hall; [done |]. simpl.
  rewrite (Hall w) by apply list_elem_of_here.
  apply IH. intros w' Hw'. apply Hall. by apply list_elem_of_further.
Qed.

(** The pipeline up to the test of line 198. *)
(** X10.  When the export has the required columns and the cache file is
    there and does not unpickle, the pipeline ends with the error of the
    load, after the join and the read of the file: no row is resolved,
    nothing is saved and nothing is classified. *)
Theorem unreadable_cache_stops_pipeline device_ids df_prod s f :
  (∀ w, w ∈ wajib → has_column w df_prod = true) →
  fs s !! cache_path = Some f →
  pickle_load f = None →
  main_pipeline device_ids df_prod s =
    (Raise UnpicklingError,
     Env (cache s) (world s) (fs s)
         (trace s ++ [Log (MsgMatch
                             (length (joined_rows df_prod device_ids))
                             (nunique (CIF <$> joined_rows df_prod device_ids)));
                      FileRead cache_path])).
Proof.
  intros Hcols Hf Hload.
  unfold main_pipeline. unfold mbind at 1, M_bind at 1.
  rewrite assert_columns_ok by done.
  unfold mbind at 1, M_bind at 1.
  rewrite filter_production_run
    by (apply Hcols; unfold wajib; set_solver).
  unfold mbind at 1, M_bind at 1.
  rewrite (load_region_cache_unreadable _ _ f) by done.
  cbn [cache world fs trace]. by rewrite <- app_assoc.
Qed.
End PipelineMore.

Lemma wajib_in_export w : w ∈ wajib → has_column w export_without_region = true.
Proof.
  unfold wajib. intros Hw.
  repeat (apply elem_of_cons in Hw as [-> | Hw]); try reflexivity.
  by apply elem_of_nil in Hw.
Qed.

Lemma unreadable_cache_stops_pipeline_witness :
  let s : env Z (list response) positive :=
    {| cache := ∅; world := [located [("city", "Jakarta")]];
       fs := {[ cache_path := 2%positive ]}; trace := [] |} in
  main_pipeline flagged_devices export_without_region s =
    (Raise UnpicklingError,
     Env (cache s) (world s) (fs s)
         (trace s ++ [Log (MsgMatch
                             (length (joined_rows export_without_region flagged_devices))
                             (nunique (CIF <$> joined_rows export_without_region
                                                  flagged_devices)));
                      FileRead cache_path])).
Proof.
  intros s.
  apply (unreadable_cache_stops_pipeline flagged_devices export_without_region s
           2%positive).
  - exact wajib_in_export.
  - reflexivity.
  - reflexivity.
Defined.

(** ** A batch, the file, and the next batch *)

Section NextBatch.
Context {num World file cell : Type} `{Float num} `{Geocoder num World}
        `{Pickle (gmap (key num) region) file}.

Local Abbreviation env := (env num World file).
Local Abbreviation Row := (Row num cell).
Implicit Types (s : env) (df : DataFrame Row).

Lemma same_cells_eq (r r1 r2 : Row) :
  same_cells r r1 → same_cells r r2 → REGION r1 = REGION r2 → r1 = r2.
Proof.
  unfold same_cells. destruct r1, r2. simpl.
  intros (-> & -> & -> & -> & ->) (-> & -> & -> & -> & ->) ->. reflexivity.
Qed.

Lemma resolved_rows_eq (c : gmap (key num) region) (rws rws1 rws2 : list Row) :
  Forall2 (λ r r', same_cells r r' ∧ resolved_in c r (REGION r')) rws rws1 →
  Forall2 (λ r r', same_cells r r' ∧ resolved_in c r (REGION r')) rws rws2 →
  rws1 = rws2.
Proof.
  intros Hfirst. revert rws2.
  induction Hfirst as [|r r1 rws rws1 [Hc1 Hr1] _ IH]; intros rws2 Hsecond.
  - by apply Forall2_nil_inv_l in Hsecond.
  - apply Forall2_cons_inv_l in Hsecond
      as (r2 & rws2' & [Hc2 Hr2] & Hsecond & ->).
    f_equal; [| by apply IH].
    apply (same_cells_eq r); [done | done |].
    unfold resolved_in in Hr1, Hr2. destruct (row_sentinel r); congruence.
Qed.

Lemma resolved_rows_cached (c : gmap (key num) region) (rws rws' : list Row) :
  Forall2 (λ r r', same_cells r r' ∧ resolved_in c r (REGION r')) rws rws' →
  Forall (λ r, row_sentinel r = true ∨ is_Some (c !! row_key r)) rws.
Proof.
  induction 1 as [|r r' rws rws' [_ Hr] _ IH]; constructor; [| done].
  unfold resolved_in in Hr. destruct (row_sentinel r); eauto.
Qed.

(** X22.  The batch, the save and the load, one after another as in
    lines 197 to 200.  On a frame with rows and with the columns LATITUDE
    and LONGITUDE, the batch returns and the dictionary it leaves can be
    saved; wherever the file is then found with that content, the load
    returns that dictionary, and a batch on the same frame that starts
    from the loaded dictionary returns the same frame as the first batch,
    calls the provider for no row, waits for none and writes nothing to
    the dictionary. *)
Theorem saved_cache_makes_next_batch_offline df delay path s :
  rows df ≠ [] →
  has_column "LATITUDE" df = true →
  has_column "LONGITUDE" df = true →
  ∃ df' s1 s2,
    map_all_regions df delay s = (Ok df', s1) ∧
    save_region_cache (cache s1) path s1 = (Ok (), s2) ∧
    ∀ s_next, fs s_next !! path = fs s2 !! path →
      ∃ s3 tr,
        load_region_cache path s_next = (Ok (cache s1), s3) ∧
        map_all_regions df delay (Env (cache s1) (world s3) (fs s3) (trace s3)) =
          (Ok df', Env (cache s1) (world s3) (fs s3)
                       (trace s3 ++ Log MsgMappingStarted :: tr)) ∧
        Forall quiet tr.
Proof.
  intros _ Hlat Hlon.
  destruct (map_all_regions_resolved df delay s Hlat Hlon)
    as (df' & s1 & Hmap & Hcols & Hrows & _ & _).
  exists df', s1. eexists.
  split; [exact Hmap |]. split; [apply save_region_cache_run |].
  cbn [fs]. intros s_next Hfile. rewrite lookup_insert_eq in Hfile.
  set (s3 := Env (cache s_next) (world s_next) (fs s_next)
               (trace s_next ++ [FileRead path;
                                 Log (MsgCacheLoaded (size (cache s1)))])).
  set (s4 := Env (cache s1) (world s3) (fs s3) (trace s3)).
  destruct (map_all_regions_warm df delay s4 Hlat Hlon) as (df2 & tr & Hmap2 & Hquiet).
  { by eapply resolved_rows_cached. }
  destruct (map_all_regions_resolved df delay s4 Hlat Hlon)
    as (df3 & s5 & Hmap3 & Hcols3 & Hrows3 & _ & _).
  rewrite Hmap2 in Hmap3. injection Hmap3 as <- <-.
  cbn [cache] in Hrows3.
  assert (Heq : df2 = df').
  { destruct df2 as [cols2 rows2], df' as [cols' rows']. simpl in *. f_equal.
    - congruence.
    - by eapply resolved_rows_eq. }
  subst df2. exists s3, tr.
  split; [| split; [exact Hmap2 | exact Hquiet]].
  by apply (load_region_cache_readable _ _ (pickle_dump (cache s1)));
    [| apply pickle_load_dump].
Qed.
End NextBatch.

Lemma saved_cache_makes_next_batch_offline_witness :
  let s := env0 [located [("city", "Jakarta")]; Raises;
                 located [("county", "Sidoarjo")]] in
  ∃ df' s1 s2,
    map_all_regions export_without_region 1 s = (Ok df', s1) ∧
    save_region_cache (cache s1) cache_path s1 = (Ok (), s2) ∧
    ∀ s_next, fs s_next !! cache_path = fs s2 !! cache_path →
      ∃ s3 tr,
        load_region_cache cache_path s_next = (Ok (cache s1), s3) ∧
        map_all_regions export_without_region 1
            (Env (cache s1) (world s3) (fs s3) (trace s3)) =
          (Ok df', Env (cache s1) (world s3) (fs s3)
                       (trace s3 ++ Log MsgMappingStarted :: tr)) ∧
        Forall quiet tr.
Proof.
  intros s.
  apply (saved_cache_makes_next_batch_offline export_without_region 1 cache_path s).
  - discriminate.
  - reflexivity.
  - reflexivity.
Defined.

(** ** The classifier, again *)

Lemma foldr_min_least t (ts : list Z) :
  foldr Z.min t ts ∈ t :: ts ∧ ∀ x, x ∈ t :: ts → (foldr Z.min t ts ≤ x)%Z.
Proof.
  induction ts as [|a ts [Hin Hle]]; simpl.
  - split; [left |]. intros x Hx. apply list_elem_of_singleton in Hx. lia.
  - split.
    + destruct (Z.min_spec a (foldr Z.min t ts)) as [[_ ->] | [_ ->]].
      * right. left.
      * apply elem_of_cons in Hin as [Heq | Hin]; [rewrite Heq; left |].
        right. by right.
    + intros x Hx.
      assert (Hcase : x = a ∨ x ∈ t :: ts).
      { apply elem_of_cons in Hx as [-> | Hx]; [right; left |].
        apply elem_of_cons in Hx as [-> | Hx]; [by left |]. right. by right. }
      destruct Hcase as [-> | Hx']; [lia |]. specialize (Hle x Hx'). lia.
Qed.

(** [Series.min()] is the least of the timestamps that are not null. *)
Lemma series_min_least (values : list (option Z)) :
  match series_min values with
  | Some m => m ∈ omap id values ∧ ∀ x, x ∈ omap id values → (m ≤ x)%Z
  | None => omap id values = []
  end.
Proof.
  unfold series_min. destruct (omap id values) as [|t ts]; [done |].
  apply foldr_min_least.
Qed.

Section ClassifierMore.
Context {num World file cell : Type} `{Float num} `{Calendar cell}.

Local Abbreviation env := (env num World file).
Local Abbreviation Row := (Row num cell).
Implicit Types (df : DataFrame Row) (s : env) (group : list Row).

Lemma nunique_all_null {A} `{EqDecision A} (values : list (option A)) :
  Forall (λ v, v = None) values → nunique values = 0.
Proof.
  unfold nunique. induction 1 as [|v values -> _ IH]; [done |]. exact IH.
Qed.

Lemma score_label_tiers months devices :
  score_label months devices ∈
    [(1%Z, "Transient"); (2%Z, "Persistent"); (2%Z, "Multi-device");
     (3%Z, "Critical")].
Proof.
  unfold score_label.
  destruct months as [|[|months]], devices as [|[|devices]]; simpl;
    first [apply list_elem_of_here
          | apply list_elem_of_further, list_elem_of_here
          | do 2 apply list_elem_of_further; apply list_elem_of_here
          | do 3 apply list_elem_of_further; apply list_elem_of_here].
Qed.

(** X15.  On a frame with the columns that the classifier reads, every
    result is one of the four tiers: 1 "Transient", 2 "Persistent", 2
    "Multi-device" or 3 "Critical".  On a frame without a DEVICE_ID
    column no result is "Multi-device" or "Critical"; and a customer whose
    rows all have a null device identifier is 1 "Transient", in however
    many months the rows are. *)
Theorem results_are_tiers df s :
  has_column "CREATED_TIME" df = true →
  has_column "CIF" df = true →
  rows df = [] ∨ has_column "REGION" df = true →
  ∃ df_risk s',
    compute_risk_scoring df s = (Ok df_risk, s') ∧
    ∀ r, r ∈ rows df_risk →
      (Risk_Score r, Risk_Label r) ∈
        [(1%Z, "Transient"); (2%Z, "Persistent"); (2%Z, "Multi-device");
         (3%Z, "Critical")] ∧
      (has_column "DEVICE_ID" df = false →
       (Risk_Score r, Risk_Label r) ∈ [(1%Z, "Transient"); (2%Z, "Persistent")]) ∧
      (has_column "DEVICE_ID" df = true →
       Forall (λ row, DEVICE_ID row = None) (group_rows (Risk_CIF r) (rows df)) →
       (Risk_Score r, Risk_Label r) = (1%Z, "Transient")).
Proof.
  intros Htime Hcif Hregion. eexists _, _.
  split; [by apply compute_risk_scoring_run |].
  intros r Hr. simpl in Hr. apply elem_of_risk_results in Hr.
  destruct (risk_result_fields (has_column "DEVICE_ID" df) (Risk_CIF r)
              (group_rows (Risk_CIF r) (rows df))) as (_ & Hpair & _).
  rewrite <- Hr in Hpair. rewrite Hpair. split; [apply score_label_tiers |].
  split.
  - intros ->. unfold group_devices, score_label.
    destruct (group_months _) as [|[|months]]; simpl;
      first [apply list_elem_of_here
            | apply list_elem_of_further, list_elem_of_here].
  - intros -> Hnull. unfold group_devices.
    rewrite nunique_all_null by (by apply Forall_fmap).
    unfold score_label.
    by destruct (group_months _) as [|[|months]].
Qed.

Lemma omap_id_fmap {A B} (f : A → option B) (l : list A) :
  omap id (f <$> l) = omap f l.
Proof.
  induction l as [|a l IH]; [done |]. cbn.
  destruct (f a); cbn; by f_equal.
Qed.

(** X16.  On a frame with the columns that the classifier reads, the
    cohort of a result is the month of the earliest of the time stamps of
    the customer that parse, and it is null when none parses. *)
Theorem cohort_is_earliest_month df s :
  has_column "CREATED_TIME" df = true →
  has_column "CIF" df = true →
  rows df = [] ∨ has_column "REGION" df = true →
  ∃ df_risk s',
    compute_risk_scoring df s = (Ok df_risk, s') ∧
    ∀ r, r ∈ rows df_risk →
      let stamps :=
        omap (to_datetime ∘ CREATED_TIME) (group_rows (Risk_CIF r) (rows df)) in
      (stamps = [] → Cohort r = None) ∧
      (stamps ≠ [] →
       ∃ t, t ∈ stamps ∧ (∀ t', t' ∈ stamps → (t ≤ t')%Z) ∧
            Cohort r = Some (to_period_M t)).
Proof.
  intros Htime Hcif Hregion. eexists _, _.
  split; [by apply compute_risk_scoring_run |].
  intros r Hr. simpl in Hr. apply elem_of_risk_results in Hr.
  destruct (risk_result_fields (has_column "DEVICE_ID" df) (Risk_CIF r)
              (group_rows (Risk_CIF r) (rows df))) as (_ & _ & _ & Hcohort).
  rewrite <- Hr in Hcohort. intros stamps. rewrite Hcohort. unfold group_cohort.
  pose proof (series_min_least
    ((to_datetime ∘ CREATED_TIME) <$> group_rows (Risk_CIF r) (rows df))) as Hmin.
  rewrite omap_id_fmap in Hmin. fold stamps in Hmin.
  destruct (series_min _) as [m|]; simpl.
  - destruct Hmin as [Hin Hle]. split.
    + intros Hnil. rewrite Hnil in Hin. by apply elem_of_nil in Hin.
    + intros _. by exists m.
  - split; [done |]. intros Hne. by destruct Hne.
Qed.

(** X18.  The columns that the classifier misses, in the order in which
    it reads them: without CREATED_TIME it raises a KeyError for it, else
    without CIF a KeyError for CIF, and else, without REGION, a KeyError
    for REGION as soon as one row has a customer identifier.  The line of
    the log is out before any of them.  When no row has a customer
    identifier the result is the frame without columns and rows, whether
    there is a REGION column or not. *)
Theorem classifier_missing_columns df s :
  let s' := Env (cache s) (world s) (fs s) (trace s ++ [Log MsgScoringStarted]) in
  (has_column "CREATED_TIME" df = false →
   compute_risk_scoring df s = (Raise (KeyError "CREATED_TIME"), s')) ∧
  (has_column "CREATED_TIME" df = true → has_column "CIF" df = false →
   compute_risk_scoring df s = (Raise (KeyError "CIF"), s')) ∧
  (has_column "CREATED_TIME" df = true → has_column "CIF" df = true →
   has_column "REGION" df = false →
   (∃ r, r ∈ rows df ∧ is_Some (CIF r)) →
   compute_risk_scoring df s = (Raise (KeyError "REGION"), s')) ∧
  (has_column "CREATED_TIME" df = true → has_column "CIF" df = true →
   Forall (λ r, CIF r = None) (rows df) →
   compute_risk_scoring df s = (Ok (pd_DataFrame []), s')).
Proof.
  intros s'.
  unfold compute_risk_scoring, mbind, M_bind, log_progress, emit, getitem.
  repeat split.
  - by intros ->.
  - by intros -> ->.
  - intros -> -> -> (r & Hr & [cif Hcif]). simpl.
    assert (Hkey : cif ∈ group_keys (rows df)).
    { apply elem_of_group_keys. rewrite <- Hcif. by apply list_elem_of_fmap_2. }
    unfold groupby_CIF. destruct (group_keys (rows df)); [| done].
    by apply elem_of_nil in Hkey.
  - intros -> -> Hall. simpl.
    assert (Hkeys : group_keys (rows df) = []).
    { unfold group_keys.
      assert (Hnil : omap CIF (rows df) = []).
      { induction Hall as [|r rws Hr _ IH]; [done |]. simpl. by rewrite Hr. }
      by rewrite Hnil. }
    unfold risk_results, groupby_CIF. by rewrite Hkeys.
Qed.
End ClassifierMore.

Lemma results_are_tiers_witness :
  ∃ df_risk s',
    compute_risk_scoring scenarios (env0 []) = (Ok df_risk, s') ∧
    ∀ r, r ∈ rows df_risk →
      (Risk_Score r, Risk_Label r) ∈
        [(1%Z, "Transient"); (2%Z, "Persistent"); (2%Z, "Multi-device");
         (3%Z, "Critical")] ∧
      (has_column "DEVICE_ID" scenarios = false →
       (Risk_Score r, Risk_Label r) ∈ [(1%Z, "Transient"); (2%Z, "Persistent")]) ∧
      (has_column "DEVICE_ID" scenarios = true →
       Forall (λ row, DEVICE_ID row = None)
              (group_rows (Risk_CIF r) (rows scenarios)) →
       (Risk_Score r, Risk_Label r) = (1%Z, "Transient")).
Proof.
  apply (results_are_tiers scenarios (env0 [])).
  - reflexivity.
  - reflexivity.
  - right. reflexivity.
Defined.

Lemma cohort_is_earliest_month_witness :
  ∃ df_risk s',
    compute_risk_scoring scenarios (env0 []) = (Ok df_risk, s') ∧
    ∀ r, r ∈ rows df_risk →
      let stamps :=
        omap (to_datetime ∘ CREATED_TIME)
             (group_rows (Risk_CIF r) (rows scenarios)) in
      (stamps = [] → Cohort r = None) ∧
      (stamps ≠ [] →
       ∃ t, t ∈ stamps ∧ (∀ t', t' ∈ stamps → (t ≤ t')%Z) ∧
            Cohort r = Some (to_period_M t)).
Proof.
  apply (cohort_is_earliest_month scenarios (env0 [])).
  - reflexivity.
  - reflexivity.
  - right. reflexivity.
Defined.

Lemma classifier_missing_columns_witness :
  compute_risk_scoring export_without_region (env0 []) =
    (Raise (KeyError "REGION"),
     Env ∅ [] ∅ [Log MsgScoringStarted]).
Proof.
  apply (proj1 (proj2 (proj2
           (classifier_missing_columns export_without_region (env0 []))))).
  - reflexivity.
  - reflexivity.
  - reflexivity.
  - exists (set_REGION (row "d4a" "C4" (-6200000) 106816666 20240110 None) None).
    split; [apply list_elem_of_here | by eexists].
Defined.

(** ** The summary of a classification *)

Lemma remove_dups_NoDup_id {A} `{EqDecision A} (l : list A) :
  NoDup l → remove_dups l = l.
Proof.
  induction 1 as [|x l Hx _ IH]; [done |]. simpl.
  destruct (decide_rel elem_of x l) as [Hin | _]; [done |]. by rewrite IH.
Qed.

Lemma length_filter_split {A} (P : A → Prop) `{∀ x, Decision (P x)} (l : list A) :
  length (filter P l) + length (filter (λ x, ¬ P x) l) = length l.
Proof.
  induction l as [|x l IH]; [done |].
  destruct (decide (P x)) as [Hx | Hx].
  - rewrite filter_cons_True by done.
    rewrite (filter_cons_False (λ x, ¬ P x)) by tauto. simpl. lia.
  - rewrite filter_cons_False by done.
    rewrite (filter_cons_True (λ x, ¬ P x)) by done. simpl. lia.
Qed.

Section SummaryMore.
Context {num World file cell : Type} `{Float num} `{Calendar cell}.

Local Abbreviation env := (env num World file).
Local Abbreviation Row := (Row num cell).
Implicit Types (df : DataFrame Row) (s : env).

Lemma length_risk_results df :
  length (risk_results df) = nunique (CIF <$> rows df).
Proof.
  rewrite <- (length_fmap Risk_CIF), risk_results_CIF.
  unfold group_keys, nunique. rewrite omap_id_fmap.
  apply Permutation_length, merge_sort_Permutation.
Qed.

Lemma nunique_risk_results df :
  nunique ((Some ∘ Risk_CIF) <$> risk_results df) = length (risk_results df).
Proof.
  unfold nunique. rewrite omap_id_fmap.
  assert (Hmap : omap (Some ∘ Risk_CIF) (risk_results df) =
                 Risk_CIF <$> risk_results df).
  { induction (risk_results df) as [|r l IH]; [done |]. cbn. by f_equal. }
  rewrite Hmap, risk_results_CIF.
  rewrite remove_dups_NoDup_id by apply group_keys_NoDup.
  by rewrite <- risk_results_CIF, length_fmap.
Qed.

(** X19.  The summary of a classification that has a customer: on a
    frame with the columns that the classifier reads and a row with a
    customer identifier, the classifier returns and the summary of its
    result returns too.  The total it prints is the number of results,
    which is the number of distinct customer identifiers of the frame and
    is not zero; the two counts it prints add up to the total, and the
    two shares are the counts over the total. *)
Theorem summary_of_classification df s :
  has_column "CREATED_TIME" df = true →
  has_column "CIF" df = true →
  has_column "REGION" df = true →
  (∃ r, r ∈ rows df ∧ is_Some (CIF r)) →
  ∃ df_risk s1 n t p,
    compute_risk_scoring df s = (Ok df_risk, s1) ∧
    n = length (rows df_risk) ∧
    n = nunique (CIF <$> rows df) ∧
    0 < n ∧
    t + p = n ∧
    impacted_customer_summary df_risk s1 =
      (Ok (), Env (cache s1) (world s1) (fs s1)
                  (trace s1 ++ [Print LineRule; Print (LineTotal n);
                                Print (LineTransient t (Ratio t n));
                                Print (LinePersistent p (Ratio p n));
                                Print LineRule; Print LineNote;
                                Log MsgSummaryDone])).
Proof.
  intros Htime Hcif Hregion (r & Hr & [cif Hrcif]).
  assert (Hkey : cif ∈ Risk_CIF <$> risk_results df).
  { rewrite risk_results_CIF. apply elem_of_group_keys.
    rewrite <- Hrcif. by apply list_elem_of_fmap_2. }
  assert (Hpos : 0 < length (risk_results df)).
  { rewrite <- (length_fmap Risk_CIF).
    destruct (Risk_CIF <$> risk_results df); [by apply elem_of_nil in Hkey |].
    simpl. lia. }
  exists (pd_DataFrame (risk_results df)). eexists.
  exists (length (risk_results df)),
    (length (filter (λ r, Risk_Label r = "Transient") (risk_results df))),
    (length (filter (λ r, Risk_Label r ≠ "Transient") (risk_results df))).
  split; [apply compute_risk_scoring_run; auto |].
  split; [done |]. split; [apply length_risk_results |].
  split; [done |].
  split; [apply (length_filter_split (λ r, Risk_Label r = "Transient")) |].
  unfold impacted_customer_summary, mbind, M_bind, getitem.
  cbn [rows pd_DataFrame].
  assert (Hcols : columns (pd_DataFrame (risk_results df)) = RiskResult_columns).
  { unfold pd_DataFrame. destruct (risk_results df); [simpl in Hpos; lia | done]. }
  unfold has_column. rewrite Hcols. cbn [bool_decide decide_rel].
  rewrite nunique_risk_results.
  assert (Hdiv : ∀ a, np_true_divide a (length (risk_results df)) =
                      Ratio a (length (risk_results df))).
  { intros a. unfold np_true_divide.
    destruct (Nat.eqb_spec (length (risk_results df)) 0); [lia | done]. }
  rewrite !Hdiv. unfold print, log_progress, emit. simpl.
  by rewrite <- !app_assoc.
Qed.
End SummaryMore.

Lemma summary_of_classification_witness :
  ∃ df_risk s1 n t p,
    compute_risk_scoring scenarios (env0 []) = (Ok df_risk, s1) ∧
    n = length (rows df_risk) ∧
    n = nunique (CIF <$> rows scenarios) ∧
    0 < n ∧
    t + p = n ∧
    impacted_customer_summary df_risk s1 =
      (Ok (), Env (cache s1) (world s1) (fs s1)
                  (trace s1 ++ [Print LineRule; Print (LineTotal n);
                                Print (LineTransient t (Ratio t n));
                                Print (LinePersistent p (Ratio p n));
                                Print LineRule; Print LineNote;
                                Log MsgSummaryDone])).
Proof.
  apply (summary_of_classification scenarios (env0 [])).
  - reflexivity.
  - reflexivity.
  - reflexivity.
  - exists (row "d4a" "C4" (-6200000) 106816666 20240110 (Some "Jakarta")).
    split; [apply list_elem_of_here | by eexists].
Defined.

